(** * espos-usb-mc: the USB printer session of [index.js]

    A shallow embedding of the session layer that sits on top of the
    native [usb] binding: the device locator ([USB.findPrinter]), the
    constructor, [open] with its per-interface asynchronous setup,
    [write], [read], [reset], [close], [destroy], the hot-plug handlers
    and the promise wrapper [USB.getDevice].

    Modelling conventions.
    - The session object is the record [USB]; every method is a
      computation in a small state-and-trace monad [M] over that record.
    - The native layer is nondeterministic.  What a native call does
      synchronously (return or throw) is a field of the object it is
      called on; what it reports later is the argument of the completion
      handler ([ifaceReady], [writeDone], [readDone], [resetDone]), which
      the transport may run at any later time.
    - Everything observable is appended to a trace: calls on a device, an
      interface or an endpoint, emitted events and invocations of the
      caller's callback, each paired with a snapshot of the session at that
      moment.  Listeners and callbacks are observers: they neither throw
      nor call back into the session before the method that invoked them
      returns.
    - The lookups in the [usb] module itself, [usb.getDeviceList()] and
      [usb.findByIds()], are reads of the environment [Env]; they leave no
      entry in the trace.
    - JavaScript object identity is carried by the [ref] field of a device.
    - [callback && callback(...)]: a callback is optional, and an absent
      one leaves no entry in the trace. *)

From Stdlib Require Import String List ZArith Bool Arith Lia Permutation.
Import ListNotations.
Local Open Scope string_scope.
Local Open Scope list_scope.

(** ** Values of the native layer *)

Inductive Error : Type :=
| JsError (msg : string)          (* new Error(msg) raised by the session *)
| TypeError (msg : string)        (* raised by the JS runtime *)
| TransportError (code : Z).      (* raised or reported by the native layer *)

Definition Buffer := list Byte.byte.

(** Reference identity of the value stored in [this.device]. *)
Inductive DevRef : Type :=
| RObj (handle : nat)             (* a native Device object *)
| RNum (n : Z).                   (* a number passed where a device is expected *)

Definition DevRef_eqb (a b : DevRef) : bool :=
  match a, b with
  | RObj x, RObj y => Nat.eqb x y
  | RNum x, RNum y => Z.eqb x y
  | _, _ => false
  end.

Record Endpoint : Type := mkEndpoint {
  address : nat;
  direction : string;
  timeout : Z;
  transfer_throws : option Error   (* Some e: transfer() throws e on submission *)
}.

Record Interface : Type := mkInterface {
  interfaceNumber : nat;
  altSetting : nat;
  setAltSetting_throws : option Error;
  isKernelDriverActive : Error + bool;   (* inl e: the call throws e *)
  detachKernelDriver_throws : option Error;
  claim_throws : option Error;
  endpoints : list Endpoint
}.

Record InterfaceDescriptor : Type := mkDescriptor {
  bInterfaceClass : Z
}.

Record Device : Type := mkDevice {
  ref : DevRef;
  (* None: reading device.configDescriptor.interfaces throws *)
  configDescriptor : option (list (list InterfaceDescriptor));
  open_throws : option Error;
  close_throws : option Error;
  reset_throws : option Error;
  (* None: device.interfaces is not an array, forEach/length throw *)
  interfaces : option (list Interface)
}.

Module IFACE_CLASS.
Definition AUDIO : Z := 0x01.
Definition HID : Z := 0x03.
Definition PRINTER : Z := 0x07.
Definition HUB : Z := 0x09.
End IFACE_CLASS.

(** The process-wide environment: the [usb] module and [os.platform()]. *)
Record Env : Type := mkEnv {
  platform : string;
  getDeviceList : list Device;
  findByIds : Z -> Z -> option Device
}.

(** ** The session object *)

Record USB : Type := mkUSB {
  device : option Device;
  endpoint : option Endpoint;              (* OUT endpoint *)
  deviceToPcEndpoint : option Endpoint;    (* IN endpoint *)
  _isOpen : bool;
  _isClosing : bool;
  _isResetting : bool;
  _readInFlight : bool
}.

Definition set_device v (s : USB) : USB :=
  mkUSB v (endpoint s) (deviceToPcEndpoint s) (_isOpen s) (_isClosing s)
        (_isResetting s) (_readInFlight s).
Definition set_endpoint v (s : USB) : USB :=
  mkUSB (device s) v (deviceToPcEndpoint s) (_isOpen s) (_isClosing s)
        (_isResetting s) (_readInFlight s).
Definition set_deviceToPcEndpoint v (s : USB) : USB :=
  mkUSB (device s) (endpoint s) v (_isOpen s) (_isClosing s)
        (_isResetting s) (_readInFlight s).
Definition set_isOpen v (s : USB) : USB :=
  mkUSB (device s) (endpoint s) (deviceToPcEndpoint s) v (_isClosing s)
        (_isResetting s) (_readInFlight s).
Definition set_isClosing v (s : USB) : USB :=
  mkUSB (device s) (endpoint s) (deviceToPcEndpoint s) (_isOpen s) v
        (_isResetting s) (_readInFlight s).
Definition set_isResetting v (s : USB) : USB :=
  mkUSB (device s) (endpoint s) (deviceToPcEndpoint s) (_isOpen s)
        (_isClosing s) v (_readInFlight s).
Definition set_readInFlight v (s : USB) : USB :=
  mkUSB (device s) (endpoint s) (deviceToPcEndpoint s) (_isOpen s)
        (_isClosing s) (_isResetting s) v.

(** ** Observable actions *)

Inductive Payload : Type :=
| PDevice (d : option Device)
| PData (b : Buffer)
| PError (e : Error).

Inductive CbValue : Type :=
| VNone                 (* no second argument *)
| VSelf                 (* the session itself *)
| VBuffer (b : Buffer).

(** The operations on a device, an interface or an endpoint.  An entry of
    the trace records that the session evaluates the call; on a number
    stored as the device ([RNum], see [numberAsDevice]) that evaluation
    throws a type error before any function of the transport runs.  The
    module-level lookups [usb.getDeviceList()] and [usb.findByIds()] are
    not among them: they are read from [Env]. *)
Inductive NativeCall : Type :=
| NDeviceOpen (d : DevRef)
| NDeviceClose (d : DevRef)
| NDeviceReset (d : DevRef)
| NSetAltSetting (iface alt : nat)
| NIsKernelDriverActive (iface : nat)
| NDetachKernelDriver (iface : nat)
| NClaim (iface : nat)
| NTransferOut (ep : Endpoint) (data : Buffer)
| NTransferIn (ep : Endpoint) (len : nat).

(** The caller's callback is identified by a number. *)
Definition CallbackFn := nat.

Inductive Action : Type :=
| Emit (name : string) (p : Payload)
| Callback (k : CallbackFn) (err : option Error) (v : CbValue)
| Native (c : NativeCall).

Definition Event : Type := Action * USB.
Definition Trace := list Event.

(** ** The state-and-trace monad *)

Definition M (A : Type) : Type := USB -> A * USB * Trace.

Definition ret {A} (a : A) : M A := fun s => (a, s, []).

Definition bind {A B} (m : M A) (f : A -> M B) : M B :=
  fun s =>
    let '(a, s1, t1) := m s in
    let '(b, s2, t2) := f a s1 in
    (b, s2, t1 ++ t2).

Definition get : M USB := fun s => (s, s, []).
Definition modify (f : USB -> USB) : M unit := fun s => (tt, f s, []).
Definition tell (a : Action) : M unit := fun s => (tt, s, [(a, s)]).

Declare Scope usb_scope.
Delimit Scope usb_scope with usb.
Notation "x <- c1 ;; c2" := (bind c1 (fun x => c2))
  (at level 100, c1 at next level, right associativity) : usb_scope.
Notation "c1 ;; c2" := (bind c1 (fun _ => c2))
  (at level 100, right associativity) : usb_scope.
Local Open Scope usb_scope.

Definition result {A} (r : A * USB * Trace) : A := fst (fst r).
Definition state_of {A} (r : A * USB * Trace) : USB := snd (fst r).
Definition trace_of {A} (r : A * USB * Trace) : Trace := snd r.

(** [this.emit(name, payload)] *)
Definition emit (name : string) (p : Payload) : M unit := tell (Emit name p).

(** [callback && callback(err, v)] *)
Definition invoke (callback : option CallbackFn) (err : option Error)
    (v : CbValue) : M unit :=
  match callback with
  | Some k => tell (Callback k err v)
  | None => ret tt
  end.

Definition native (c : NativeCall) : M unit := tell (Native c).

(** ** Device locator *)

(** A number used as a filter verdict: zero is falsy. *)
Definition truthy (n : nat) : bool := negb (Nat.eqb n 0).

Definition isPrinterConf (conf : InterfaceDescriptor) : bool :=
  Z.eqb (bInterfaceClass conf) IFACE_CLASS.PRINTER.

Definition isPrinterDevice (d : Device) : bool :=
  match configDescriptor d with
  | None => false                                   (* catch (e) { return false } *)
  | Some ifaces =>
      truthy (length (filter
        (fun iface => truthy (length (filter isPrinterConf iface))) ifaces))
  end.

Definition findPrinter (env : Env) : list Device :=
  filter isPrinterDevice (getDeviceList env).

(** ** Constructor *)

(** An argument of [new USB(vid, pid)]. *)
Inductive CtorArg : Type :=
| AUndefined
| ANumber (z : Z)
| ADevice (d : Device).

Definition truthyArg (a : CtorArg) : bool :=
  match a with
  | AUndefined => false
  | ANumber z => negb (Z.eqb z 0)
  | ADevice _ => true
  end.

(** [usb.findByIds(vid, pid)]: only numeric identifiers can match. *)
Definition lookupByIds (env : Env) (vid pid : CtorArg) : option Device :=
  match vid, pid with
  | ANumber v, ANumber p => findByIds env v p
  | _, _ => None
  end.

(** A number stored in [this.device]: it has none of a device's methods, so
    calling one throws and reading [interfaces] gives no array.  The trace
    still shows the attempted call, with the reference [RNum]. *)
Definition numberAsDevice (z : Z) : Device :=
  mkDevice (RNum z) None
    (Some (TypeError "this.device.open is not a function"))
    (Some (TypeError "this.device.close is not a function"))
    (Some (TypeError "this.device.reset is not a function"))
    None.

Definition new_USB (env : Env) (vid pid : CtorArg) : USB :=
  let picked :=
    if truthyArg vid && truthyArg pid then lookupByIds env vid pid
    else if truthyArg vid then
      match vid with
      | ADevice d => Some d
      | ANumber z => Some (numberAsDevice z)
      | AUndefined => None
      end
    else hd_error (findPrinter env) in
  mkUSB picked None None false false false false.

(** ** Hot-plug handlers *)

(** [device === self.device] for the device carried by a hot-plug event. *)
Definition isBound (d : Device) (self : USB) : bool :=
  match device self with
  | Some d' => DevRef_eqb (ref d) (ref d')
  | None => false
  end.

Definition _onDetach (d : Device) : M unit :=
  self <- get ;;
  if isBound d self then
    modify (set_isOpen false) ;;
    modify (set_endpoint None) ;;
    modify (set_deviceToPcEndpoint None) ;;
    emit "detach" (PDevice (Some d)) ;;
    emit "disconnect" (PDevice (Some d)) ;;
    modify (set_device None)
  else ret tt.

Definition _onAttach (env : Env) (d : Device) : M unit :=
  self <- get ;;
  match device self with
  | None =>
      match findPrinter env with
      | d0 :: _ => modify (set_device (Some d0))
      | [] => ret tt
      end
  | Some _ => ret tt
  end ;;
  self <- get ;;
  if isBound d self then emit "attach" (PDevice (Some d)) else ret tt.

(** ** Errors raised by the session itself *)

Definition ErrResetting : Error := JsError "USB is resetting".
Definition ErrNoDevice : Error := JsError "No USB printer device found".
Definition ErrNoEndpointPair : Error :=
  JsError "Can not find endpoint pair (in+out) from printer".
Definition ErrBusy : Error := JsError "USB busy (reset/close)".
Definition ErrNotReady : Error := JsError "USB endpoint not ready".
Definition ErrReadInProgress : Error := JsError "USB read already in progress".
Definition ErrNoDeviceToReset : Error := JsError "No device to reset".
Definition ErrNotAnArray : Error :=
  TypeError "Cannot read properties of undefined".

(** ** open *)

Definition isNone {A} (o : option A) : bool :=
  match o with None => true | Some _ => false end.

(** [this.device.interfaces.forEach(iface => iface.setAltSetting(..., cb))]
    inside the outer [try]: returns the interfaces whose completion is now
    pending; a throwing [setAltSetting] aborts the loop and is reported. *)
Fixpoint forEach_setAltSetting (callback : option CallbackFn)
    (ifaces : list Interface) : M (list Interface) :=
  match ifaces with
  | [] => ret []
  | iface :: rest =>
      native (NSetAltSetting (interfaceNumber iface) (altSetting iface)) ;;
      match setAltSetting_throws iface with
      | Some e => invoke callback (Some e) VNone ;; ret []
      | None =>
          pending <- forEach_setAltSetting callback rest ;;
          ret (iface :: pending)
      end
  end.

Definition open (callback : option CallbackFn) : M (list Interface) :=
  self <- get ;;
  if _isResetting self then
    invoke callback (Some ErrResetting) VNone ;; ret []
  else
    match device self with
    | None => invoke callback (Some ErrNoDevice) VNone ;; ret []
    | Some d =>
        if _isOpen self then invoke callback None VSelf ;; ret []
        else
          native (NDeviceOpen (ref d)) ;;
          match open_throws d with
          | Some e => invoke callback (Some e) VNone ;; ret []
          | None =>
              match interfaces d with
              | None => invoke callback (Some ErrNotAnArray) VNone ;; ret []
              | Some ifaces => forEach_setAltSetting callback ifaces
              end
          end
    end.

(** The kernel-driver check and [iface.claim()]; [Some e] when the block
    throws [e] ([detachKernelDriver] sits in a [try] of its own). *)
Definition claimInterface (platform : string) (iface : Interface)
    : M (option Error) :=
  let n := interfaceNumber iface in
  thrown <-
    (if negb (String.eqb "win32" platform) then
       native (NIsKernelDriverActive n) ;;
       match isKernelDriverActive iface with
       | inl e => ret (Some e)
       | inr true => native (NDetachKernelDriver n) ;; ret None
       | inr false => ret None
       end
     else ret None) ;;
  match thrown with
  | Some e => ret (Some e)
  | None => native (NClaim n) ;; ret (claim_throws iface)
  end.

(** [iface.endpoints.forEach(...)] filling the locals [outEp] and [inEp]. *)
Definition scanEndpoints (eps : list Endpoint)
    : option Endpoint * option Endpoint :=
  fold_left
    (fun (acc : option Endpoint * option Endpoint) ep =>
       let outEp :=
         if String.eqb (direction ep) "out" && isNone (fst acc)
         then Some ep else fst acc in
       let inEp :=
         if String.eqb (direction ep) "in" && isNone (snd acc)
         then Some ep else snd acc in
       (outEp, inEp))
    eps (None, None).

Definition withTimeout (t : Z) (ep : Endpoint) : Endpoint :=
  mkEndpoint (address ep) (direction ep) t (transfer_throws ep).

(** The completion handler passed to [setAltSetting].  [counter] is the
    closure variable of the [open] call; the new value is returned.  One
    [try] covers the whole body: whatever is thrown goes to the callback. *)
Definition ifaceReady (platform : string) (callback : option CallbackFn)
    (iface : Interface) (counter : nat) : M nat :=
  thrown <- claimInterface platform iface ;;
  match thrown with
  | Some e => invoke callback (Some e) VNone ;; ret counter
  | None =>
      let (outEp, inEp) := scanEndpoints (endpoints iface) in
      self <- get ;;
      if negb (isNone outEp) && negb (isNone inEp) &&
         isNone (endpoint self) && isNone (deviceToPcEndpoint self)
      then
        modify (set_endpoint outEp) ;;
        modify (set_deviceToPcEndpoint inEp) ;;
        modify (fun s =>
          set_endpoint (option_map (withTimeout 15000) (endpoint s)) s) ;;
        modify (fun s =>
          set_deviceToPcEndpoint
            (option_map (withTimeout 700) (deviceToPcEndpoint s)) s) ;;
        modify (set_isOpen true) ;;
        modify (set_isClosing false) ;;
        self <- get ;;
        emit "connect" (PDevice (device self)) ;;
        invoke callback None VSelf ;;
        ret counter
      else
        let counter := S counter in
        match device self with
        | None => invoke callback (Some ErrNotAnArray) VNone ;; ret counter
        | Some d =>
            match interfaces d with
            | None =>
                invoke callback (Some ErrNotAnArray) VNone ;; ret counter
            | Some ifaces =>
                if Nat.eqb counter (length ifaces) && isNone (endpoint self)
                then invoke callback (Some ErrNoEndpointPair) VNone ;;
                     ret counter
                else ret counter
            end
        end
  end.

(** The transport runs the pending completions one after the other, in the
    order [sched]. *)
Fixpoint completions (platform : string) (callback : option CallbackFn)
    (sched : list Interface) (counter : nat) : M nat :=
  match sched with
  | [] => ret counter
  | iface :: rest =>
      counter <- ifaceReady platform callback iface counter ;;
      completions platform callback rest counter
  end.

(** ** write *)

Definition write (data : Buffer) (callback : option CallbackFn) : M bool :=
  self <- get ;;
  if _isResetting self || _isClosing self then
    invoke callback (Some ErrBusy) VNone ;; ret false
  else
    match endpoint self with
    | None => invoke callback (Some ErrNotReady) VNone ;; ret false
    | Some ep =>
        emit "data" (PData data) ;;
        native (NTransferOut ep data) ;;
        match transfer_throws ep with
        | Some e => invoke callback (Some e) VNone ;; ret false
        | None => ret true           (* completion pending *)
        end
    end.

(** The arrow function passed to [endpoint.transfer] by [write]. *)
Definition writeDone (callback : option CallbackFn) (err : option Error)
    : M unit :=
  match err with
  | Some e => emit "error" (PError e)
  | None => ret tt
  end ;;
  invoke callback err VNone.

(** ** read *)

Definition read (callback : option CallbackFn) : M bool :=
  self <- get ;;
  if _isResetting self || _isClosing self then
    invoke callback (Some ErrBusy) VNone ;; ret false
  else
    match deviceToPcEndpoint self with
    | None => invoke callback None (VBuffer []) ;; ret false
    | Some ep =>
        if _readInFlight self then
          invoke callback (Some ErrReadInProgress) VNone ;; ret false
        else
          modify (set_readInFlight true) ;;
          native (NTransferIn ep 8) ;;
          match transfer_throws ep with
          | Some e =>
              modify (set_readInFlight false) ;;
              invoke callback (Some e) (VBuffer []) ;;
              ret false
          | None => ret true         (* completion pending *)
          end
    end.

(** The function passed to [deviceToPcEndpoint.transfer] by [read];
    [data] is [None] when the transport hands over no buffer. *)
Definition readDone (callback : option CallbackFn) (err : option Error)
    (data : option Buffer) : M unit :=
  modify (set_readInFlight false) ;;
  match err with
  | Some e => invoke callback (Some e) (VBuffer [])
  | None =>
      let buf := match data with Some b => b | None => [] end in
      invoke callback None (VBuffer buf)
  end.

(** ** reset *)

Definition reset (callback : option CallbackFn) : M bool :=
  self <- get ;;
  match device self with
  | None => invoke callback (Some ErrNoDeviceToReset) VNone ;; ret false
  | Some d =>
      if _isResetting self then invoke callback None VNone ;; ret false
      else
        modify (set_isResetting true) ;;
        native (NDeviceReset (ref d)) ;;
        match reset_throws d with
        | Some e =>
            modify (set_isResetting false) ;;
            modify (set_readInFlight false) ;;
            invoke callback (Some e) VNone ;;
            ret false
        | None => ret true           (* completion pending *)
        end
  end.

(** The arrow function passed to [device.reset]. *)
Definition resetDone (callback : option CallbackFn) (err : option Error)
    : M unit :=
  modify (set_isResetting false) ;;
  modify (set_readInFlight false) ;;
  modify (set_isOpen false) ;;
  modify (set_endpoint None) ;;
  modify (set_deviceToPcEndpoint None) ;;
  invoke callback err VNone.

(** ** close *)

Definition close (callback : option CallbackFn) : M unit :=
  self <- get ;;
  if _isClosing self then invoke callback None VNone
  else
    modify (set_isClosing true) ;;
    if isNone (device self) || negb (_isOpen self) then
      modify (set_isOpen false) ;;
      modify (set_endpoint None) ;;
      modify (set_deviceToPcEndpoint None) ;;
      modify (set_isClosing false) ;;
      invoke callback None VNone
    else
      match device self with                   (* this.device.close() *)
      | Some d => native (NDeviceClose (ref d))  (* a throw is ignored *)
      | None => ret tt
      end ;;
      modify (set_isOpen false) ;;
      modify (set_readInFlight false) ;;
      modify (set_endpoint None) ;;
      modify (set_deviceToPcEndpoint None) ;;
      modify (set_isClosing false) ;;
      invoke callback None VNone ;;
      self <- get ;;
      emit "close" (PDevice (device self)).

(** ** USB.getDevice *)

Inductive Promise : Type :=
| Pending
| Fulfilled (v : CbValue)
| Rejected (e : Error).

Definition resolve (v : CbValue) (p : Promise) : Promise :=
  match p with Pending => Fulfilled v | _ => p end.

Definition reject (e : Error) (p : Promise) : Promise :=
  match p with Pending => Rejected e | _ => p end.

(** [function (err) { if (err) return reject(err); resolve(device); }] *)
Definition getDevice_callback (err : option Error) (p : Promise) : Promise :=
  match err with
  | Some e => reject e p
  | None => resolve VSelf p
  end.

(** The promise after the invocations of callback [k] recorded in a trace. *)
Definition settle (k : CallbackFn) (t : Trace) (p : Promise) : Promise :=
  fold_left
    (fun p (ev : Event) =>
       match fst ev with
       | Callback k' err _ =>
           if Nat.eqb k' k then getDevice_callback err p else p
       | _ => p
       end)
    t p.

(** The order in which the transport completes the pending setups: the
    positions, in the list [open] registered, of the interfaces whose
    completion runs next. *)
Definition scheduled (pending : list Interface) (order : list nat)
    : list Interface :=
  flat_map (fun n => match nth_error pending n with
                     | Some iface => [iface]
                     | None => []
                     end) order.

(** [open] followed by the completions it registered, run in [order]. *)
Definition openThen (platform : string) (callback : option CallbackFn)
    (order : list nat) : M nat :=
  pending <- open callback ;;
  completions platform callback (scheduled pending order) 0.

(** [USB.getDevice(vid, pid)] once the transport has run the completions in
    [order]: the promise, the session and the trace. *)
Definition getDevice (env : Env) (vid pid : CtorArg) (order : list nat)
    : Promise * USB * Trace :=
  let r := openThen (platform env) (Some 0) order (new_USB env vid pid) in
  (settle 0 (trace_of r) Pending, state_of r, trace_of r).

(** A run of [open] calls, one per callback. *)
Fixpoint openEach (cbs : list CallbackFn) : M unit :=
  match cbs with
  | [] => ret tt
  | k :: rest => open (Some k) ;; openEach rest
  end.

(** ** Calls on a session and reachable states *)

(** Everything that can run against a session: the public methods, the
    completion handlers the transport calls back, the hot-plug handlers. *)
Inductive Call : Type :=
| COpen (callback : option CallbackFn)
| CIfaceReady (platform : string) (callback : option CallbackFn)
    (iface : Interface) (counter : nat)
| CWrite (data : Buffer) (callback : option CallbackFn)
| CWriteDone (callback : option CallbackFn) (err : option Error)
| CRead (callback : option CallbackFn)
| CReadDone (callback : option CallbackFn) (err : option Error)
    (data : option Buffer)
| CReset (callback : option CallbackFn)
| CResetDone (callback : option CallbackFn) (err : option Error)
| CClose (callback : option CallbackFn)
| CDetach (d : Device)
| CAttach (env : Env) (d : Device).

Definition perform (c : Call) : M unit :=
  match c with
  | COpen cb => open cb ;; ret tt
  | CIfaceReady pf cb iface n => ifaceReady pf cb iface n ;; ret tt
  | CWrite data cb => write data cb ;; ret tt
  | CWriteDone cb err => writeDone cb err
  | CRead cb => read cb ;; ret tt
  | CReadDone cb err data => readDone cb err data
  | CReset cb => reset cb ;; ret tt
  | CResetDone cb err => resetDone cb err
  | CClose cb => close cb
  | CDetach d => _onDetach d
  | CAttach env d => _onAttach env d
  end.

Inductive reachable : USB -> Prop :=
| reach_new env vid pid : reachable (new_USB env vid pid)
| reach_call s c : reachable s -> reachable (state_of (perform c s)).

(** ** Reading traces *)

Definition actions (t : Trace) : list Action := map fst t.

(** The arguments of the callback invocations of a trace, in order. *)
Definition callbacks (t : Trace) : list (option Error * CbValue) :=
  flat_map (fun a => match a with
                     | Callback _ err v => [(err, v)]
                     | _ => []
                     end) (actions t).

Definition nativeCalls (t : Trace) : list NativeCall :=
  flat_map (fun a => match a with Native c => [c] | _ => [] end) (actions t).

Definition emitted (name : string) (t : Trace) : list Payload :=
  flat_map (fun a => match a with
                     | Emit n p => if String.eqb n name then [p] else []
                     | _ => []
                     end) (actions t).

(** A sequence that keeps the order of another one. *)
Inductive subsequence {A : Type} : list A -> list A -> Prop :=
| sub_nil : subsequence [] []
| sub_skip x l l' : subsequence l l' -> subsequence l (x :: l')
| sub_keep x l l' : subsequence l l' -> subsequence (x :: l) (x :: l').

(** The locator as section 4.1 words it: a device qualifies when its
    descriptor can be read and some interface declares class 0x07. *)
Definition qualifies (d : Device) : bool :=
  match configDescriptor d with
  | None => false
  | Some ifaces =>
      existsb (fun iface =>
        existsb (fun conf => Z.eqb (bInterfaceClass conf) 7) iface) ifaces
  end.

(** Calls that belong to opening: [open] itself and the completion of an
    interface setup it started. *)
Definition isOpenCall (c : Call) : bool :=
  match c with
  | COpen _ | CIfaceReady _ _ _ _ => true
  | _ => false
  end.

Fixpoint performAll (cs : list Call) : M unit :=
  match cs with
  | [] => ret tt
  | c :: rest => perform c ;; performAll rest
  end.

(** The arguments of the invocations of callback [k] in a trace. *)
Definition callbacksOf (k : CallbackFn) (t : Trace)
    : list (option Error * CbValue) :=
  flat_map (fun a => match a with
                     | Callback k' err v =>
                         if Nat.eqb k' k then [(err, v)] else []
                     | _ => []
                     end) (actions t).

(** What the first completion makes of a promise. *)
Definition decidedBy (cs : list (option Error * CbValue)) : Promise :=
  match cs with
  | [] => Pending
  | (None, _) :: _ => Fulfilled VSelf
  | (Some e, _) :: _ => Rejected e
  end.

(** A session whose device went away while a read was outstanding. *)
Definition staleRead : USB := mkUSB None None None false false false true.

(** ** What a stored pair may be *)

(** The pair of the session is the first OUT and the first IN endpoint of
    the one interface [iface], with the session's timeouts set. *)
Definition pairFrom (iface : Interface) (s : USB) : Prop :=
  exists o i,
    In o (endpoints iface) /\ In i (endpoints iface) /\
    direction o = "out" /\ direction i = "in" /\
    endpoint s = Some (withTimeout 15000 o) /\
    deviceToPcEndpoint s = Some (withTimeout 700 i).

Definition noPair (s : USB) : Prop :=
  endpoint s = None /\ deviceToPcEndpoint s = None.

Definition pairInvariant (s : USB) : Prop :=
  noPair s \/ exists iface, pairFrom iface s.

(** The setup of an interface raises: the kernel-driver query (asked on
    every platform but win32) or the claim throws. *)
Definition raises (platform : string) (iface : Interface) : bool :=
  (negb (String.eqb "win32" platform) &&
   match isKernelDriverActive iface with inl _ => true | inr _ => false end)
  || negb (isNone (claim_throws iface)).

(** The interface has an OUT and an IN endpoint. *)
Definition bothDirections (iface : Interface) : bool :=
  existsb (fun ep => String.eqb (direction ep) "out") (endpoints iface) &&
  existsb (fun ep => String.eqb (direction ep) "in") (endpoints iface).

Definition usable (platform : string) (iface : Interface) : bool :=
  negb (raises platform iface) && bothDirections iface.

(** What the setup block of an interface throws, if anything. *)
Definition setupError (platform : string) (iface : Interface)
    : option Error :=
  if negb (String.eqb "win32" platform) then
    match isKernelDriverActive iface with
    | inl e => Some e
    | inr _ => claim_throws iface
    end
  else claim_throws iface.

(** The state [ifaceReady] leaves when it records the pair [(o, i)]. *)
Definition withPair (o i : Endpoint) (s : USB) : USB :=
  mkUSB (device s) (Some (withTimeout 15000 o)) (Some (withTimeout 700 i))
        true false (_isResetting s) (_readInFlight s).

(** What the exhaustion test reports once the counter has become [c]. *)
Definition exhaustionReport (c : nat) (s : USB)
    : list (option Error * CbValue) :=
  match device s with
  | None => [(Some ErrNotAnArray, VNone)]
  | Some d =>
      match interfaces d with
      | None => [(Some ErrNotAnArray, VNone)]
      | Some ifaces =>
          if Nat.eqb c (length ifaces) && isNone (endpoint s)
          then [(Some ErrNoEndpointPair, VNone)] else []
      end
  end.

(** What every reachable session satisfies. *)

Definition Inv (s : USB) : Prop :=
  _isClosing s = false
  /\ (_isOpen s = false -> noPair s)
  /\ pairInvariant s.

(** The callback invocations that report [cs], all in state [s]. *)
Definition reporting (k : CallbackFn) (s : USB)
    (cs : list (option Error * CbValue)) : Trace :=
  map (fun c => (Callback k (fst c) (snd c), s)) cs.

(** The errors the raising interfaces of a schedule hand to the callback. *)
Definition raisedErrors (platform : string) (sched : list Interface)
    : list (option Error * CbValue) :=
  map (fun i => (setupError platform i, VNone))
      (filter (raises platform) sched).

(** The number of interfaces of a schedule whose setup does not raise. *)
Definition quiet (platform : string) (sched : list Interface) : nat :=
  length (filter (fun i => negb (raises platform i)) sched).

(** The session reports the missing pair: no interface is usable, none
    raises, and there is at least one. *)
Definition reportsNoPair (platform : string) (ifaces : list Interface)
    : bool :=
  negb (existsb (usable platform) ifaces)
  && forallb (fun i => negb (raises platform i)) ifaces
  && negb (Nat.eqb (length ifaces) 0).

(** The successful and the failed completions among callback arguments. *)
Definition successes (t : Trace) : list (option Error * CbValue) :=
  filter (fun c => isNone (fst c)) (callbacks t).

Definition failures (t : Trace) : list (option Error * CbValue) :=
  filter (fun c => negb (isNone (fst c))) (callbacks t).

(** [open] on [s] gets as far as the interface loop of device [d] and
    registers a completion for each interface of [ifaces]. *)
Definition enumerates (s : USB) (d : Device) (ifaces : list Interface)
    : Prop :=
  _isResetting s = false /\ device s = Some d /\ _isOpen s = false /\
  open_throws d = None /\ interfaces d = Some ifaces /\
  Forall (fun i => setAltSetting_throws i = None) ifaces.

(** [open] on [s] ends before the interface loop: a guard answers, the
    transport's device-open throws, or the device has no interface array. *)
Definition stopsEarly (s : USB) : Prop :=
  _isResetting s = true \/ device s = None \/ _isOpen s = true \/
  exists d, device s = Some d /\
            (open_throws d <> None \/ interfaces d = None).

(** ** Sample devices *)

Definition epOut (a : nat) : Endpoint := mkEndpoint a "out" 0 None.
Definition epIn (a : nat) : Endpoint := mkEndpoint a "in" 0 None.

Definition plainInterface (n : nat) (eps : list Endpoint) : Interface :=
  mkInterface n 0 None (inr false) None None eps.

Definition ifaceBoth : Interface := plainInterface 0 [epOut 1; epIn 129].
Definition ifaceOutOnly : Interface := plainInterface 0 [epOut 1].
Definition ifaceInOnly : Interface := plainInterface 1 [epIn 129].
Definition ifaceClaimFails : Interface :=
  mkInterface 0 0 None (inr false) None (Some (TransportError (-6)))
    [epOut 1; epIn 129].
Definition ifaceBoth1 : Interface := plainInterface 1 [epOut 2; epIn 130].

Definition printerWith (ifaces : list Interface) : Device :=
  mkDevice (RObj 1) (Some [[mkDescriptor 7]]) None None None (Some ifaces).

Definition linux (devs : list Device) : Env :=
  mkEnv "linux" devs (fun _ _ => None).

(** A session bound to nothing, as [new USB()] leaves it when no printer is
    attached. *)
Definition unbound : USB := new_USB (linux []) AUndefined AUndefined.

(** A session bound to the given device and still closed. *)
Definition boundTo (d : Device) : USB :=
  new_USB (linux []) (ADevice d) AUndefined.

(** ** The earlier revision

    The repository also keeps an earlier revision of the module.  It has no
    resetting and no in-flight flag, and its [open] and [close] differ from
    the ones above; they are embedded here to state how.  It works on the
    same session record and leaves the two newer flags alone. *)

Module Legacy.

Definition ErrNoEndpoint : Error :=
  JsError "Can not find endpoint from printer".

(** [iface.endpoints.filter(...)] assigning straight to the session. *)
Fixpoint forEach_endpoint (eps : list Endpoint) : M unit :=
  match eps with
  | [] => ret tt
  | ep :: rest =>
      self <- get ;;
      (if String.eqb (direction ep) "out" && isNone (endpoint self)
       then modify (set_endpoint (Some ep)) else ret tt) ;;
      self <- get ;;
      (if String.eqb (direction ep) "in" &&
          isNone (deviceToPcEndpoint self)
       then modify (set_deviceToPcEndpoint (Some ep)) else ret tt) ;;
      forEach_endpoint rest
  end.

Definition ifaceReady (platform : string) (callback : option CallbackFn)
    (iface : Interface) (counter : nat) : M nat :=
  thrown <- claimInterface platform iface ;;
  match thrown with
  | Some e => invoke callback (Some e) VNone ;; ret counter
  | None =>
      forEach_endpoint (endpoints iface) ;;
      self <- get ;;
      if negb (isNone (endpoint self)) then
        modify (set_isOpen true) ;;
        modify (set_isClosing false) ;;
        self <- get ;;
        emit "connect" (PDevice (device self)) ;;
        invoke callback None VSelf ;;
        ret counter
      else
        let counter := S counter in
        match device self with
        | None =>
            invoke callback (Some ErrNotAnArray) VNone ;; ret counter
        | Some d =>
            match interfaces d with
            | None =>
                invoke callback (Some ErrNotAnArray) VNone ;; ret counter
            | Some ifaces =>
                if Nat.eqb counter (length ifaces) &&
                   isNone (endpoint self)
                then invoke callback (Some ErrNoEndpoint) VNone ;;
                     ret counter
                else ret counter
            end
        end
  end.

Fixpoint completions (platform : string) (callback : option CallbackFn)
    (sched : list Interface) (counter : nat) : M nat :=
  match sched with
  | [] => ret counter
  | iface :: rest =>
      counter <- ifaceReady platform callback iface counter ;;
      completions platform callback rest counter
  end.

Definition close (callback : option CallbackFn) : M unit :=
  self <- get ;;
  if _isClosing self then invoke callback None VNone
  else
    modify (set_isClosing true) ;;
    if isNone (device self) || negb (_isOpen self) then
      modify (set_isOpen false) ;;
      modify (set_endpoint None) ;;
      modify (set_deviceToPcEndpoint None) ;;
      invoke callback None VNone
    else
      match device self with
      | Some d => native (NDeviceClose (ref d))
      | None => ret tt
      end ;;
      modify (set_isOpen false) ;;
      modify (set_endpoint None) ;;
      modify (set_deviceToPcEndpoint None) ;;
      invoke callback None VNone ;;
      self <- get ;;
      emit "close" (PDevice (device self)).

End Legacy.

(** ** Bookkeeping over sequences of calls *)

(** Calls that can operate on a device, an interface or an endpoint even
    on a closed session. *)
Definition startsNativeWork (c : Call) : bool :=
  match c with
  | COpen _ | CIfaceReady _ _ _ _ | CReset _ => true
  | _ => false
  end.

(** Calls that write the in-flight flag without being a read. *)
Definition writesReadFlag (c : Call) : bool :=
  match c with
  | CReset _ | CResetDone _ _ | CClose _ => true
  | _ => false
  end.

(** A run of calls that counts the IN transfers the transport still owes a
    completion: a [read] that submits adds one, a completion takes one away;
    [None] when a completion is scheduled although nothing is outstanding. *)
Fixpoint trackReads (cs : list Call) (n : nat) : M (option nat) :=
  match cs with
  | [] => ret (Some n)
  | CRead cb :: rest =>
      submitted <- read cb ;;
      trackReads rest (if submitted then S n else n)
  | CReadDone cb err data :: rest =>
      match n with
      | 0 => ret None
      | S m => readDone cb err data ;; trackReads rest m
      end
  | c :: rest => perform c ;; trackReads rest n
  end.

(** ** destroy and the hot-plug subscription *)







(** The completion of [iface] on session [s] records a pair. *)
Definition stores (platform : string) (iface : Interface) (s : USB) : bool :=
  usable platform iface && isNone (endpoint s)
  && isNone (deviceToPcEndpoint s).

(** ** Runs around a reset *)

(** A session that is open, with a read outstanding and a reset pending:
    the printer is opened, a [read] is submitted and [reset] is called. *)
Definition resetPending : USB :=
  state_of (performAll
    [COpen (Some 0); CIfaceReady "linux" (Some 0) ifaceBoth 0;
     CRead (Some 1); CReset (Some 2)]
    (boundTo (printerWith [ifaceBoth]))).

(** [open] is called and, while the setup of the interface is still
    pending, [reset] is called and completes. *)
Definition resetDuringSetup : USB :=
  state_of (performAll
    [COpen (Some 0); CReset (Some 1); CResetDone (Some 1) None]
    (boundTo (printerWith [ifaceBoth]))).

(** * Properties *)

Ltac run :=
  cbv [bind ret get modify tell invoke emit native result state_of
       trace_of].

Ltac fields :=
  cbv [set_device set_endpoint set_deviceToPcEndpoint set_isOpen
       set_isClosing set_isResetting set_readInFlight];
  cbn [device endpoint deviceToPcEndpoint _isOpen _isClosing _isResetting
       _readInFlight fst snd].

Ltac solve_frame :=
  repeat split; cbn [fst snd]; fields; try reflexivity; try congruence.

Ltac run_in H :=
  cbv [bind ret get modify tell invoke emit native result state_of
       trace_of] in H.

Lemma DevRef_eqb_eq a b : DevRef_eqb a b = true <-> a = b.
Proof.
  destruct a, b; simpl; split; intro H; try discriminate; try congruence.
  - apply Nat.eqb_eq in H; congruence.
  - inversion H; apply Nat.eqb_refl.
  - apply Z.eqb_eq in H; congruence.
  - inversion H; apply Z.eqb_refl.
Qed.

Lemma filter_subsequence {A} (f : A -> bool) (l : list A) :
  subsequence (filter f l) l.
Proof.
  induction l as [|x l IH]; simpl.
  - constructor.
  - destruct (f x); constructor; exact IH.
Qed.

Lemma truthy_filter_existsb {A} (f : A -> bool) (l : list A) :
  truthy (length (filter f l)) = existsb f l.
Proof.
  induction l as [|x l IH]; simpl; [reflexivity|].
  destruct (f x); simpl; [reflexivity | exact IH].
Qed.

Lemma isPrinterDevice_qualifies d : isPrinterDevice d = qualifies d.
Proof.
  unfold isPrinterDevice, qualifies.
  destruct (configDescriptor d) as [ifaces|]; [|reflexivity].
  rewrite truthy_filter_existsb.
  induction ifaces as [|i l IH]; simpl; [reflexivity|].
  rewrite truthy_filter_existsb, IH. reflexivity.
Qed.

(** C9. The locator returns exactly the devices of the transport's list
    whose descriptor is readable and has an interface of class 0x07, in the
    transport's order; an unreadable descriptor excludes the device. *)
Theorem findPrinter_exactly_printers (env : Env) :
  findPrinter env = filter qualifies (getDeviceList env)
  /\ subsequence (findPrinter env) (getDeviceList env)
  /\ (forall d, In d (findPrinter env) <->
        In d (getDeviceList env) /\
        exists ifaces iface conf,
          configDescriptor d = Some ifaces /\ In iface ifaces /\
          In conf iface /\ bInterfaceClass conf = 7%Z)
  /\ (forall d, configDescriptor d = None -> ~ In d (findPrinter env)).
Proof.
  assert (E : findPrinter env = filter qualifies (getDeviceList env)).
  { unfold findPrinter. apply filter_ext. exact isPrinterDevice_qualifies. }
  split; [exact E|]. split; [apply filter_subsequence|]. split.
  - intro d. rewrite E, filter_In. unfold qualifies.
    split; intros [Hin H]; (split; [exact Hin|]).
    + destruct (configDescriptor d) as [ifaces|]; [|discriminate].
      apply existsb_exists in H. destruct H as [iface [Hi H]].
      apply existsb_exists in H. destruct H as [conf [Hc H]].
      exists ifaces, iface, conf. apply Z.eqb_eq in H. auto.
    + destruct H as [ifaces [iface [conf [Hd [Hi [Hc H]]]]]]. rewrite Hd.
      apply existsb_exists. exists iface. split; [exact Hi|].
      apply existsb_exists. exists conf. split; [exact Hc|].
      apply Z.eqb_eq. exact H.
  - intros d Hd Hin. rewrite E in Hin. apply filter_In in Hin.
    unfold qualifies in Hin. rewrite Hd in Hin. destruct Hin; discriminate.
Qed.

(** ** Hot-plug filtering *)

Lemma isBound_iff d s :
  isBound d s = true <-> exists d', device s = Some d' /\ ref d = ref d'.
Proof.
  unfold isBound. destruct (device s) as [d'|].
  - rewrite DevRef_eqb_eq. split.
    + intro H. exists d'. auto.
    + intros [d'' [E H]]. inversion E. subst. exact H.
  - split; [discriminate|]. intros [d' [E _]]. discriminate.
Qed.

(** C8. A detach event for a device that is not the bound one changes
    nothing and notifies nobody; for the bound device the session is
    closed, the pair and the device reference are cleared, and [detach]
    then [disconnect] are raised once each, in that order. *)
Theorem detach_only_for_bound_device (d : Device) (s : USB) :
  (isBound d s = true <-> exists d', device s = Some d' /\ ref d = ref d')
  /\ (isBound d s = false -> _onDetach d s = (tt, s, []))
  /\ (isBound d s = true ->
      let r := _onDetach d s in
      state_of r = mkUSB None None None false (_isClosing s)
                         (_isResetting s) (_readInFlight s)
      /\ actions (trace_of r) =
           [Emit "detach" (PDevice (Some d));
            Emit "disconnect" (PDevice (Some d))]
      /\ length (emitted "detach" (trace_of r)) = 1
      /\ length (emitted "disconnect" (trace_of r)) = 1).
Proof.
  split; [apply isBound_iff|]. split; intro H.
  - unfold _onDetach. run. rewrite H. reflexivity.
  - unfold _onDetach. run. rewrite H. simpl. auto.
Qed.

(** ** open: the synchronous guards *)

(** C6. [open] checks, in this order: resetting (Busy), no device
    (NoDeviceBound), already open (success with the session, no native
    call); otherwise it calls the transport's device-open, and when that
    throws the error goes to the callback and the session is left as it
    was.  Repeated [open] calls on an open session all succeed without a
    native call. *)
Theorem open_guard_order (cb : CallbackFn) (s : USB) :
  (_isResetting s = true ->
     open (Some cb) s = ([], s, [(Callback cb (Some ErrResetting) VNone, s)]))
  /\ (_isResetting s = false -> device s = None ->
     open (Some cb) s = ([], s, [(Callback cb (Some ErrNoDevice) VNone, s)]))
  /\ (forall d, _isResetting s = false -> device s = Some d ->
     _isOpen s = true ->
     open (Some cb) s = ([], s, [(Callback cb None VSelf, s)]))
  /\ (forall d e, _isResetting s = false -> device s = Some d ->
     _isOpen s = false -> open_throws d = Some e ->
     open (Some cb) s =
       ([], s, [(Native (NDeviceOpen (ref d)), s);
                (Callback cb (Some e) VNone, s)]))
  /\ (forall d (cbs : list CallbackFn), _isResetting s = false ->
     device s = Some d -> _isOpen s = true ->
     openEach cbs s = (tt, s, map (fun k => (Callback k None VSelf, s)) cbs)).
Proof.
  repeat split.
  - intro R. unfold open. run. rewrite R. reflexivity.
  - intros R D. unfold open. run. rewrite R, D. reflexivity.
  - intros d R D O. unfold open. run. rewrite R, D, O. reflexivity.
  - intros d e R D O T. unfold open. run. rewrite R, D, O, T. reflexivity.
  - intros d cbs R D O. induction cbs as [|k l IH]; [reflexivity|].
    simpl. unfold bind at 1. unfold open. run. rewrite R, D, O.
    simpl. rewrite IH. reflexivity.
Qed.

(** ** write *)

(** C7. [write] fails with Busy while resetting or closing and with
    NotReady without an OUT endpoint; otherwise it emits [data] with the
    payload and only then submits one transfer; a transfer that completes
    with an error emits [error] and then hands that error to the callback;
    neither [write] nor its completion submits a second transfer. *)
Theorem write_guards_and_notifications (data : Buffer) (cb : CallbackFn)
    (s : USB) :
  (_isResetting s || _isClosing s = true ->
     write data (Some cb) s =
       (false, s, [(Callback cb (Some ErrBusy) VNone, s)]))
  /\ (_isResetting s || _isClosing s = false -> endpoint s = None ->
     write data (Some cb) s =
       (false, s, [(Callback cb (Some ErrNotReady) VNone, s)]))
  /\ (forall ep, _isResetting s || _isClosing s = false ->
     endpoint s = Some ep ->
     let r := write data (Some cb) s in
     state_of r = s
     /\ result r = isNone (transfer_throws ep)
     /\ actions (trace_of r) =
          Emit "data" (PData data) :: Native (NTransferOut ep data) ::
          match transfer_throws ep with
          | Some e => [Callback cb (Some e) VNone]
          | None => []
          end)
  /\ (forall e, writeDone (Some cb) (Some e) s =
        (tt, s, [(Emit "error" (PError e), s);
                 (Callback cb (Some e) VNone, s)]))
  /\ writeDone (Some cb) None s = (tt, s, [(Callback cb None VNone, s)])
  /\ length (nativeCalls (trace_of (write data (Some cb) s))) <= 1
  /\ (forall err, nativeCalls (trace_of (writeDone (Some cb) err s)) = []).
Proof.
  repeat split.
  - intro B. unfold write. run. rewrite B. reflexivity.
  - intros B E. unfold write. run. rewrite B, E. reflexivity.
  - unfold write. run. rewrite H, H0.
    destruct (transfer_throws ep); reflexivity.
  - unfold write. run. rewrite H, H0.
    destruct (transfer_throws ep); reflexivity.
  - unfold write. run. rewrite H, H0.
    destruct (transfer_throws ep); reflexivity.
  - unfold write. run.
    destruct (_isResetting s || _isClosing s); simpl; [lia|].
    destruct (endpoint s) as [ep|]; simpl; [|lia].
    destruct (transfer_throws ep); simpl; lia.
  - intros [e|]; reflexivity.
Qed.

(** ** read *)

(** C5. [read] fails with Busy while resetting or closing, hands over an
    empty buffer and no error without an IN endpoint, fails with
    ReadInProgress while a read is outstanding, and otherwise submits one
    transfer of 8 bytes.  On each way a submitted read ends (completion
    with or without error, throw on submission) the callback is invoked in
    a state whose in-flight flag is already clear, and a read issued in the
    state a completion leaves is not refused with ReadInProgress. *)
Theorem read_guards_and_in_flight_flag (cb : CallbackFn) (s : USB) :
  (_isResetting s || _isClosing s = true ->
     read (Some cb) s = (false, s, [(Callback cb (Some ErrBusy) VNone, s)]))
  /\ (_isResetting s || _isClosing s = false ->
     deviceToPcEndpoint s = None ->
     read (Some cb) s = (false, s, [(Callback cb None (VBuffer []), s)]))
  /\ (forall ep, _isResetting s || _isClosing s = false ->
     deviceToPcEndpoint s = Some ep -> _readInFlight s = true ->
     read (Some cb) s =
       (false, s, [(Callback cb (Some ErrReadInProgress) VNone, s)]))
  /\ (forall ep, _isResetting s || _isClosing s = false ->
     deviceToPcEndpoint s = Some ep -> _readInFlight s = false ->
     transfer_throws ep = None ->
     read (Some cb) s =
       (true, set_readInFlight true s,
        [(Native (NTransferIn ep 8), set_readInFlight true s)]))
  /\ (forall ep e, _isResetting s || _isClosing s = false ->
     deviceToPcEndpoint s = Some ep -> _readInFlight s = false ->
     transfer_throws ep = Some e ->
     read (Some cb) s =
       (false, s,
        [(Native (NTransferIn ep 8), set_readInFlight true s);
         (Callback cb (Some e) (VBuffer []), s)]))
  /\ (forall e data,
     readDone (Some cb) (Some e) data s =
       (tt, set_readInFlight false s,
        [(Callback cb (Some e) (VBuffer []), set_readInFlight false s)]))
  /\ (forall data,
     readDone (Some cb) None data s =
       (tt, set_readInFlight false s,
        [(Callback cb None
            (VBuffer match data with Some b => b | None => [] end),
          set_readInFlight false s)]))
  /\ (forall err data cb',
     let s' := state_of (readDone (Some cb) err data s) in
     _readInFlight s' = false
     /\ ~ In (Some ErrReadInProgress, VNone)
             (callbacks (trace_of (read (Some cb') s')))).
Proof.
  repeat split.
  - intro B. unfold read. run. rewrite B. reflexivity.
  - intros B E. unfold read. run. rewrite B, E. reflexivity.
  - intros ep B E F. unfold read. run. rewrite B, E, F. reflexivity.
  - intros ep B E F T. unfold read. run. rewrite B, E, F. simpl.
    rewrite T. reflexivity.
  - intros ep e B E F T. unfold read. run. rewrite B, E, F. simpl.
    rewrite T. simpl. destruct s; simpl in *. subst. reflexivity.
  - destruct err; reflexivity.
  - destruct err as [e|]; unfold readDone, read; run; simpl;
      (destruct (_isResetting s || _isClosing s); simpl;
       [intros [H|[]]; discriminate|]);
      (destruct (deviceToPcEndpoint s) as [ep|]; simpl;
       [|intros [H|[]]; discriminate]);
      (destruct (transfer_throws ep); simpl; [|tauto]);
      intros [H|[]]; discriminate.
Qed.

(** ** Endpoint discovery *)

Lemma scanEndpoints_find eps :
  scanEndpoints eps =
    (find (fun ep => String.eqb (direction ep) "out") eps,
     find (fun ep => String.eqb (direction ep) "in") eps).
Proof.
  unfold scanEndpoints.
  assert (G : forall l o i,
    fold_left
      (fun (acc : option Endpoint * option Endpoint) ep =>
         (if String.eqb (direction ep) "out" && isNone (fst acc)
          then Some ep else fst acc,
          if String.eqb (direction ep) "in" && isNone (snd acc)
          then Some ep else snd acc)) l (o, i) =
    (match o with Some _ => o
     | None => find (fun ep => String.eqb (direction ep) "out") l end,
     match i with Some _ => i
     | None => find (fun ep => String.eqb (direction ep) "in") l end)).
  { induction l as [|ep l IH]; intros o i; simpl.
    - destruct o, i; reflexivity.
    - rewrite IH. destruct o, i; simpl;
        rewrite ?andb_false_r, ?andb_true_r;
        destruct (String.eqb (direction ep) "out");
        destruct (String.eqb (direction ep) "in"); reflexivity. }
  apply (G eps None None).
Qed.

Lemma scanEndpoints_both iface o i :
  scanEndpoints (endpoints iface) = (Some o, Some i) ->
  In o (endpoints iface) /\ In i (endpoints iface) /\
  direction o = "out" /\ direction i = "in".
Proof.
  rewrite scanEndpoints_find. intro H. inversion H as [[Ho Hi]].
  apply find_some in Ho, Hi. destruct Ho as [? Ho], Hi as [? Hi].
  apply String.eqb_eq in Ho, Hi. auto.
Qed.

Lemma scanEndpoints_bothDirections iface :
  bothDirections iface = true <->
  exists o i, scanEndpoints (endpoints iface) = (Some o, Some i).
Proof.
  rewrite scanEndpoints_find. unfold bothDirections.
  rewrite andb_true_iff. split.
  - intros [Ho Hi]. apply existsb_exists in Ho, Hi.
    destruct Ho as [o [Io Ho]], Hi as [i [Ii Hi]].
    destruct (find (fun ep => String.eqb (direction ep) "out")
                (endpoints iface)) as [o'|] eqn:Fo.
    + destruct (find (fun ep => String.eqb (direction ep) "in")
                (endpoints iface)) as [i'|] eqn:Fi.
      * exists o', i'. reflexivity.
      * apply (find_none _ _ Fi) in Ii. congruence.
    + apply (find_none _ _ Fo) in Io. congruence.
  - intros [o [i H]]. inversion H as [[Ho Hi]].
    apply find_some in Ho, Hi. split; apply existsb_exists; eauto.
Qed.

Lemma raises_setupError pf iface :
  raises pf iface = negb (isNone (setupError pf iface)).
Proof.
  unfold raises, setupError.
  destruct (negb (String.eqb "win32" pf)); simpl;
    [destruct (isKernelDriverActive iface)|]; reflexivity.
Qed.

Lemma claimInterface_spec pf iface s :
  exists t, claimInterface pf iface s = (setupError pf iface, s, t)
            /\ callbacks t = [] /\ Forall (fun ev => snd ev = s) t.
Proof.
  unfold claimInterface, setupError. run.
  destruct (negb (String.eqb "win32" pf)); simpl.
  - destruct (isKernelDriverActive iface) as [e|[|]]; simpl;
      eexists; (split; [reflexivity|]); split; try reflexivity;
      repeat constructor.
  - eexists; (split; [reflexivity|]); split; try reflexivity;
      repeat constructor.
Qed.

Lemma callbacks_app t1 t2 : callbacks (t1 ++ t2) = callbacks t1 ++ callbacks t2.
Proof. unfold callbacks, actions. rewrite map_app, flat_map_app. reflexivity. Qed.

Lemma ifaceReady_raises pf k iface c s :
  raises pf iface = true ->
  exists e t, setupError pf iface = Some e
              /\ ifaceReady pf (Some k) iface c s = (c, s, t)
              /\ callbacks t = [(Some e, VNone)]
              /\ Forall (fun ev => snd ev = s) t.
Proof.
  rewrite raises_setupError. intro R.
  destruct (claimInterface_spec pf iface s) as [t [E [Hc Hs]]].
  unfold ifaceReady, bind. rewrite E.
  destruct (setupError pf iface) as [e|]; [|discriminate].
  exists e. eexists. split; [reflexivity|]. split; [reflexivity|]. split.
  - rewrite callbacks_app, Hc. reflexivity.
  - apply Forall_app. split; [exact Hs|]. repeat constructor.
Qed.

Lemma ifaceReady_stores pf k iface c s o i :
  raises pf iface = false ->
  scanEndpoints (endpoints iface) = (Some o, Some i) ->
  noPair s ->
  exists t, ifaceReady pf (Some k) iface c s = (c, withPair o i s, t)
            /\ callbacks t = [(None, VSelf)]
            /\ Forall (fun ev => snd ev = s \/ snd ev = withPair o i s) t.
Proof.
  rewrite raises_setupError. intros R Sc [No Ni].
  destruct (claimInterface_spec pf iface s) as [t [E [Hc Hs]]].
  unfold ifaceReady, bind. rewrite E.
  destruct (setupError pf iface) as [e|]; [discriminate|].
  rewrite Sc. run. rewrite No, Ni. simpl.
  eexists. split; [reflexivity|]. split.
  - rewrite callbacks_app, Hc. reflexivity.
  - apply Forall_app. split.
    + eapply Forall_impl; [|exact Hs]. simpl. auto.
    + repeat constructor; right; reflexivity.
Qed.

Lemma callbacks_reporting k s cs : callbacks (reporting k s cs) = cs.
Proof.
  induction cs as [|[e v] cs IH]; [reflexivity|].
  unfold callbacks, actions, reporting in *. simpl. rewrite IH. reflexivity.
Qed.

Lemma ifaceReady_counts pf k iface c s :
  raises pf iface = false ->
  bothDirections iface = false \/ ~ noPair s ->
  exists t0, ifaceReady pf (Some k) iface c s =
               (S c, s, t0 ++ reporting k s (exhaustionReport (S c) s))
             /\ callbacks t0 = []
             /\ Forall (fun ev => snd ev = s) t0.
Proof.
  rewrite raises_setupError. intros R H.
  destruct (claimInterface_spec pf iface s) as [t [E [Hc Hs]]].
  unfold ifaceReady, bind. rewrite E.
  destruct (setupError pf iface) as [e|]; [discriminate|].
  destruct (scanEndpoints (endpoints iface)) as [oe ie] eqn:Sc.
  unfold get at 1.
  replace (negb (isNone oe) && negb (isNone ie) && isNone (endpoint s) &&
           isNone (deviceToPcEndpoint s)) with false.
  - exists t. split; [|split; assumption].
    unfold exhaustionReport. run.
    destruct (device s) as [d|];
      [destruct (interfaces d) as [ifs|];
       [destruct (Nat.eqb (S c) (length ifs) && isNone (endpoint s))|]|];
      reflexivity.
  - symmetry. destruct oe as [o|]; [|reflexivity].
    destruct ie as [i|]; [|reflexivity]. simpl.
    destruct H as [B|N].
    + assert (bothDirections iface = true)
        by (apply scanEndpoints_bothDirections; eauto).
      congruence.
    + unfold noPair in N.
      destruct (endpoint s); [reflexivity|].
      destruct (deviceToPcEndpoint s); [reflexivity|]. exfalso. auto.
Qed.

Lemma ifaceReady_state pf cb iface c s :
  state_of (ifaceReady pf cb iface c s) = s
  \/ exists o i, scanEndpoints (endpoints iface) = (Some o, Some i)
                 /\ noPair s
                 /\ state_of (ifaceReady pf cb iface c s) = withPair o i s.
Proof.
  destruct (claimInterface_spec pf iface s) as [t [E _]].
  unfold ifaceReady, bind. rewrite E.
  destruct (setupError pf iface) as [e|].
  - left. destruct cb; reflexivity.
  - destruct (scanEndpoints (endpoints iface)) as [oe ie] eqn:Sc.
    unfold get at 1.
    destruct (negb (isNone oe) && negb (isNone ie) && isNone (endpoint s) &&
              isNone (deviceToPcEndpoint s)) eqn:Cond.
    + right. destruct oe as [o|]; [|discriminate].
      destruct ie as [i|]; [|discriminate].
      destruct (endpoint s) eqn:Eo; [discriminate|].
      destruct (deviceToPcEndpoint s) eqn:Ei; [discriminate|].
      exists o, i. split; [reflexivity|]. split; [split; assumption|].
      run. simpl. rewrite Eo, Ei. destruct cb; reflexivity.
    + left. run. destruct (device s) as [d|];
        [destruct (interfaces d) as [ifs|];
         [destruct (Nat.eqb (S c) (length ifs) && isNone (endpoint s))|]|];
        destruct cb; reflexivity.
Qed.

Lemma Inv_new env vid pid : Inv (new_USB env vid pid).
Proof. unfold Inv, pairInvariant, noPair, new_USB. simpl. auto. Qed.

Lemma Inv_withPair iface o i s :
  scanEndpoints (endpoints iface) = (Some o, Some i) -> Inv (withPair o i s).
Proof.
  intro Sc. apply scanEndpoints_both in Sc.
  destruct Sc as [Io [Ii [Do Di]]].
  unfold Inv. simpl. split; [reflexivity|]. split; [discriminate|].
  right. exists iface, o, i. simpl. auto 10.
Qed.

Lemma Inv_cleared d b r f : Inv (mkUSB d None None b false r f).
Proof. unfold Inv, pairInvariant, noPair. simpl. auto. Qed.

Lemma Inv_perform c s : Inv s -> Inv (state_of (perform c s)).
Proof.
  intro I. destruct c; simpl.
  - (* open *)
    assert (G : forall l, state_of (forEach_setAltSetting callback l s) = s).
    { induction l as [|x l IH]; [reflexivity|]. simpl. unfold bind at 1.
      simpl. destruct (setAltSetting_throws x).
      - destruct callback; reflexivity.
      - unfold bind. unfold state_of in IH.
        destruct (forEach_setAltSetting callback l s) as [[p s1] t1].
        simpl in *. exact IH. }
    unfold bind at 1.
    destruct (open callback s) as [[p s1] t1] eqn:E. simpl.
    replace s1 with s; [exact I|].
    unfold open in E. run_in E.
    destruct (_isResetting s); [destruct callback; inversion E; auto|].
    destruct (device s) as [d|]; [|destruct callback; inversion E; auto].
    destruct (_isOpen s); [destruct callback; inversion E; auto|].
    destruct (open_throws d); [destruct callback; inversion E; auto|].
    destruct (interfaces d) as [ifs|];
      [|destruct callback; inversion E; auto].
    specialize (G ifs). unfold state_of in G.
    destruct (forEach_setAltSetting callback ifs s) as [[p2 s2] t2].
    simpl in *. inversion E. congruence.
  - (* ifaceReady *)
    unfold bind at 1.
    destruct (ifaceReady_state platform0 callback iface counter s)
      as [H|[o [i [Sc [N H]]]]];
      unfold state_of in *;
      destruct (ifaceReady platform0 callback iface counter s)
        as [[p s1] t1]; simpl in *; subst s1; [exact I|].
    eapply Inv_withPair; eassumption.
  - (* write *)
    unfold write. run.
    destruct (_isResetting s || _isClosing s);
      [destruct callback; exact I|].
    destruct (endpoint s) as [ep|]; [|destruct callback; exact I].
    destruct (transfer_throws ep); destruct callback; exact I.
  - (* writeDone *)
    unfold writeDone. run. destruct err, callback; exact I.
  - (* read *)
    unfold read. run.
    destruct (_isResetting s || _isClosing s);
      [destruct callback; exact I|].
    destruct (deviceToPcEndpoint s) as [ep|]; [|destruct callback; exact I].
    destruct (_readInFlight s); [destruct callback; exact I|].
    destruct (transfer_throws ep); destruct callback; exact I.
  - (* readDone *)
    unfold readDone. run. destruct err, callback; exact I.
  - (* reset *)
    unfold reset. run.
    destruct (device s) as [d|]; [|destruct callback; exact I].
    destruct (_isResetting s); [destruct callback; exact I|].
    destruct (reset_throws d); destruct callback; exact I.
  - (* resetDone *)
    unfold resetDone. run. destruct I as [C _].
    destruct callback; fields; rewrite C; apply Inv_cleared.
  - (* close *)
    unfold close. run. destruct I as [C _]. rewrite C.
    destruct (isNone (device s) || negb (_isOpen s)).
    + destruct callback; fields; apply Inv_cleared.
    + destruct (device s); destruct callback; fields; apply Inv_cleared.
  - (* detach *)
    unfold _onDetach. run. destruct (isBound d s); [|exact I].
    fields. destruct I as [C _]. rewrite C. apply Inv_cleared.
  - (* attach *)
    unfold _onAttach. run.
    destruct (device s) as [d0|] eqn:D.
    + destruct (isBound d s); exact I.
    + destruct (findPrinter env) as [|d0 l].
      * destruct (isBound d s); exact I.
      * assert (I' : Inv (set_device (Some d0) s))
          by (destruct s; exact I).
        destruct (isBound d _); exact I'.
Qed.

Lemma reachable_Inv s : reachable s -> Inv s.
Proof.
  induction 1 as [env vid pid|s c _ IH].
  - apply Inv_new.
  - apply Inv_perform. exact IH.
Qed.

(** ** reset *)

Lemma performAll_keeps_closed cs s :
  Forall (fun c => isOpenCall c = false) cs ->
  noPair s -> _isOpen s = false ->
  noPair (state_of (performAll cs s)) /\
  _isOpen (state_of (performAll cs s)) = false.
Proof.
  revert s. induction cs as [|c cs IH]; intros s F N O; [auto|].
  inversion F as [|? ? Hc F']; subst. simpl. unfold bind.
  destruct (perform c s) as [[u s1] t1] eqn:E.
  assert (K : noPair s1 /\ _isOpen s1 = false).
  { destruct N as [No Ni]. unfold noPair.
    destruct c; try discriminate; simpl in E.
    - unfold write in E. run_in E. rewrite No in E.
      destruct (_isResetting s || _isClosing s); destruct callback;
        inversion E; subst; auto.
    - unfold writeDone in E. run_in E.
      destruct err, callback; inversion E; subst; auto.
    - unfold read in E. run_in E. rewrite Ni in E.
      destruct (_isResetting s || _isClosing s); destruct callback;
        inversion E; subst; auto.
    - unfold readDone in E. run_in E.
      destruct err, callback; inversion E; subst; fields; auto.
    - unfold reset in E. run_in E.
      destruct (device s) as [d|];
        [destruct (_isResetting s); [|destruct (reset_throws d)]|];
        destruct callback; inversion E; subst; fields; auto.
    - unfold resetDone in E. run_in E.
      destruct callback; inversion E; subst; fields; auto.
    - unfold close in E. run_in E.
      destruct (_isClosing s);
        [|destruct (isNone (device s) || negb (_isOpen s));
          [|destruct (device s)]];
        destruct callback; inversion E; subst; fields; auto.
    - unfold _onDetach in E. run_in E.
      destruct (isBound d s); inversion E; subst; fields; auto.
    - unfold _onAttach in E. run_in E.
      destruct (device s) as [d0|];
        [|destruct (findPrinter env) as [|d0 l]];
        destruct (isBound d _); inversion E; subst; fields; auto. }
  destruct K as [N1 O1].
  specialize (IH s1 F' N1 O1). unfold state_of in *.
  destruct (performAll cs s1) as [[u2 s2] t2]. exact IH.
Qed.

Lemma reachable_performAll cs :
  forall s, reachable s -> reachable (state_of (performAll cs s)).
Proof.
  induction cs as [|c cs IH]; intros s R; [exact R|].
  specialize (IH _ (reach_call s c R)).
  simpl. unfold bind, state_of in *.
  destruct (perform c s) as [[u s1] t1]. cbn [fst snd] in *.
  destruct (performAll cs s1) as [[u2 s2] t2]. exact IH.
Qed.

(** C2 as stated fails: the session does not stay closed until [open] is
    called again.  [open] is called and leaves the setup of the interface
    pending; [reset] is called and completes, which closes the session and
    makes [write] fail with NotReady.  Then the pending setup completes: it
    stores the pair and opens the session, and [write] and [read] submit
    their transfers, although [open] was not called again.  Besides, a
    [write] issued while a further [reset] is pending fails with Busy, not
    with NotReady. *)
Lemma reset_then_stale_setup_reopens :
  result (open (Some 0) (boundTo (printerWith [ifaceBoth]))) = [ifaceBoth]
  /\ _isOpen resetDuringSetup = false
  /\ callbacks (trace_of (write [] (Some 2) resetDuringSetup))
     = [(Some ErrNotReady, VNone)]
  /\ _isOpen (state_of (ifaceReady "linux" (Some 0) ifaceBoth 0
                          resetDuringSetup)) = true
  /\ actions (trace_of (write [] (Some 2)
       (state_of (ifaceReady "linux" (Some 0) ifaceBoth 0
                    resetDuringSetup))))
     = [Emit "data" (PData []);
        Native (NTransferOut (withTimeout 15000 (epOut 1)) [])]
  /\ actions (trace_of (read (Some 3)
       (state_of (ifaceReady "linux" (Some 0) ifaceBoth 0
                    resetDuringSetup))))
     = [Native (NTransferIn (withTimeout 700 (epIn 129)) 8)]
  /\ callbacks (trace_of (write [] (Some 2)
       (state_of (reset (Some 4) resetDuringSetup))))
     = [(Some ErrBusy, VNone)].
Proof. repeat split. Qed.

(** C2, amended.  When the completion of the transport's reset runs, with
    or without an error, the resetting and in-flight flags are cleared, the
    session is closed and both endpoints are dropped, and the callback gets
    the transport's error, or null.  A write issued then fails with
    NotReady and a read hands over an empty buffer; and whatever is called
    afterwards, as long as it is neither [open] nor the completion of an
    interface setup (which an [open] issued before the reset may have left
    pending), the session stays closed without a pair, neither [write] nor
    [read] reaches an endpoint, a [write] fails with NotReady and a [read]
    hands over an empty buffer, or both fail with Busy while a further
    reset is pending. *)
Theorem reset_completion_forces_closed (s : USB) (cb : CallbackFn)
    (err : option Error) :
  reachable s ->
  let s' := state_of (resetDone (Some cb) err s) in
  _isResetting s' = false /\ _readInFlight s' = false
  /\ _isOpen s' = false
  /\ endpoint s' = None /\ deviceToPcEndpoint s' = None
  /\ device s' = device s
  /\ trace_of (resetDone (Some cb) err s) = [(Callback cb err VNone, s')]
  /\ (forall data k,
        write data (Some k) s' =
          (false, s', [(Callback k (Some ErrNotReady) VNone, s')]))
  /\ (forall k,
        read (Some k) s' = (false, s', [(Callback k None (VBuffer []), s')]))
  /\ (forall cs, Forall (fun c => isOpenCall c = false) cs ->
        let s'' := state_of (performAll cs s') in
        _isOpen s'' = false /\ endpoint s'' = None
        /\ deviceToPcEndpoint s'' = None
        /\ (forall data k,
              nativeCalls (trace_of (write data (Some k) s'')) = [])
        /\ (forall k, nativeCalls (trace_of (read (Some k) s'')) = [])
        /\ (forall data k,
              write data (Some k) s'' =
                (false, s'',
                 [(Callback k
                     (Some (if _isResetting s'' then ErrBusy
                            else ErrNotReady)) VNone, s'')]))
        /\ (forall k,
              read (Some k) s'' =
                (false, s'',
                 [(if _isResetting s''
                   then Callback k (Some ErrBusy) VNone
                   else Callback k None (VBuffer []), s'')]))).
Proof.
  intros R s'.
  pose proof (reach_call s (CResetDone (Some cb) err) R) as R'.
  simpl perform in R'.
  apply reachable_Inv in R. destruct R as [C _].
  set (s0 := mkUSB (device s) None None false false false false).
  assert (E : resetDone (Some cb) err s = (tt, s0, [(Callback cb err VNone, s0)])).
  { unfold resetDone. run. fields. rewrite C. reflexivity. }
  unfold s'. rewrite E in *. unfold state_of, trace_of in *.
  cbn [fst snd] in *.
  assert (W : forall x, noPair x ->
    (forall data k, nativeCalls (trace_of (write data (Some k) x)) = []) /\
    (forall k, nativeCalls (trace_of (read (Some k) x)) = [])).
  { intros x [No Ni]. split; intros; [unfold write|unfold read]; run;
      rewrite ?No, ?Ni; destruct (_isResetting x || _isClosing x);
      reflexivity. }
  assert (G : forall x, noPair x -> _isClosing x = false ->
    (forall data k,
       write data (Some k) x =
         (false, x,
          [(Callback k (Some (if _isResetting x then ErrBusy
                              else ErrNotReady)) VNone, x)])) /\
    (forall k,
       read (Some k) x =
         (false, x,
          [(if _isResetting x then Callback k (Some ErrBusy) VNone
            else Callback k None (VBuffer []), x)]))).
  { intros x [No Ni] Cx. split; intros; [unfold write|unfold read]; run;
      rewrite ?No, ?Ni, Cx, orb_false_r; destruct (_isResetting x);
      reflexivity. }
  repeat (split; [reflexivity|]).
  intros cs F.
  destruct (performAll_keeps_closed cs s0 F) as [N O];
    [split; reflexivity|reflexivity|].
  pose proof (reachable_Inv _ (reachable_performAll cs s0 R')) as [C2 _].
  unfold state_of, trace_of in *.
  destruct (performAll cs s0) as [[u s2] t2]. cbn [fst snd] in *.
  destruct (W s2 N) as [Ww Wr]. destruct (G s2 N C2) as [Gw Gr].
  destruct N as [No Ni]. auto 10.
Qed.

Lemma reset_completion_forces_closed_witness :
  reachable resetPending
  /\ _isOpen resetPending = true /\ _isResetting resetPending = true
  /\ _readInFlight resetPending = true
  /\ endpoint resetPending = Some (withTimeout 15000 (epOut 1))
  /\ _isOpen (state_of (resetDone (Some 2) (Some (TransportError (-4)))
                          resetPending)) = false
  /\ endpoint (state_of (resetDone (Some 2) (Some (TransportError (-4)))
                           resetPending)) = None.
Proof.
  assert (R : reachable resetPending).
  { unfold resetPending. apply reachable_performAll. apply reach_new. }
  split; [exact R|]. split; [reflexivity|]. split; [reflexivity|].
  split; [reflexivity|]. split; [reflexivity|].
  pose proof (reset_completion_forces_closed resetPending 2
                (Some (TransportError (-4))) R) as H.
  split; [exact (proj1 (proj2 (proj2 H)))|].
  exact (proj1 (proj2 (proj2 (proj2 H)))).
Defined.

(** ** close *)

(** C4 as stated fails: without a bound device [close] emits no [close]
    notification, and on that path the in-flight flag is left as it was. *)
Lemma close_unbound_is_silent :
  emitted "close" (trace_of (close (Some 0) unbound)) = []
  /\ actions (trace_of (close (Some 0) unbound)) = [Callback 0 None VNone]
  /\ _readInFlight (state_of (close (Some 0) staleRead)) = true.
Proof. repeat split. Qed.

Example staleRead_reachable : reachable staleRead.
Proof.
  pose (d := printerWith [ifaceBoth]).
  change staleRead with
    (state_of (perform (CDetach d)
      (state_of (perform (CRead None)
        (state_of (perform (CIfaceReady "linux" None ifaceBoth 0)
          (boundTo d))))))).
  repeat apply reach_call. apply reach_new.
Qed.

(** C4, amended.  A [close] that passes the already-closing guard clears
    the endpoint pair, the open flag and the closing flag.  With a device
    bound and the session open it calls the transport's close, clears the
    in-flight flag as well, invokes the callback and then emits [close];
    with no device or a session that is not open it makes no native call
    and emits nothing.  A [close] met by the guard only succeeds. *)
Theorem close_clears_and_notifies_when_open (s : USB) (cb : CallbackFn) :
  _isClosing s = false ->
  let r := close (Some cb) s in
  let s' := state_of r in
  endpoint s' = None /\ deviceToPcEndpoint s' = None
  /\ _isOpen s' = false /\ _isClosing s' = false
  /\ device s' = device s /\ _isResetting s' = _isResetting s
  /\ (isNone (device s) || negb (_isOpen s) = true ->
        trace_of r = [(Callback cb None VNone, s')])
  /\ (forall d, device s = Some d -> _isOpen s = true ->
        _readInFlight s' = false
        /\ trace_of r =
             [(Native (NDeviceClose (ref d)), set_isClosing true s);
              (Callback cb None VNone, s');
              (Emit "close" (PDevice (Some d)), s')])
  /\ (forall k, close (Some k) (set_isClosing true s) =
        (tt, set_isClosing true s,
         [(Callback k None VNone, set_isClosing true s)])).
Proof.
  destruct s as [dv eo ei o c rs f]. cbn [_isClosing]. intros C. subst c.
  unfold close. run. fields.
  destruct dv as [d|]; destruct o; cbn [isNone negb orb]; fields;
    repeat split; try reflexivity; try discriminate;
    match goal with H : Some _ = Some _ |- _ => inversion H; subst end;
    reflexivity.
Qed.

Lemma close_clears_and_notifies_when_open_witness :
  _isClosing (boundTo (printerWith [ifaceBoth])) = false
  /\ _isClosing (state_of (close (Some 0)
       (boundTo (printerWith [ifaceBoth])))) = false.
Proof.
  split; [reflexivity|].
  exact (proj1 (proj2 (proj2 (proj2
    (close_clears_and_notifies_when_open
       (boundTo (printerWith [ifaceBoth])) 0 eq_refl))))).
Defined.

(** ** USB.getDevice *)

Lemma settle_settled k t p :
  p <> Pending -> settle k t p = p.
Proof.
  revert p. induction t as [|[a s] t IH]; intros p H; [reflexivity|].
  unfold settle in *. simpl.
  destruct a; try (apply IH; exact H).
  destruct (Nat.eqb k0 k); [|apply IH; exact H].
  assert (E : getDevice_callback err p = p)
    by (destruct p, err; try reflexivity; contradiction).
  rewrite E. apply IH. exact H.
Qed.

Lemma settle_decidedBy k t :
  settle k t Pending = decidedBy (callbacksOf k t).
Proof.
  induction t as [|[a s] t IH]; [reflexivity|].
  unfold settle in *. unfold callbacksOf, actions in *. simpl.
  destruct a; try exact IH.
  destruct (Nat.eqb k0 k); [|exact IH].
  destruct err as [e|]; simpl; apply (settle_settled k t); discriminate.
Qed.

(** C10. [USB.getDevice(vid, pid)] builds a new session and calls [open]
    on it; the first invocation of the callback it passed decides the
    promise: fulfilled with the session when it reports success, rejected
    with the error when it reports one, and pending while there is none. *)
Theorem getDevice_first_completion_decides (env : Env) (vid pid : CtorArg)
    (order : list nat) :
  let run := openThen (platform env) (Some 0) order (new_USB env vid pid) in
  let p := fst (fst (getDevice env vid pid order)) in
  snd (getDevice env vid pid order) = trace_of run
  /\ snd (fst (getDevice env vid pid order)) = state_of run
  /\ p = decidedBy (callbacksOf 0 (trace_of run))
  /\ (p = Fulfilled VSelf <->
      exists v rest, callbacksOf 0 (trace_of run) = (None, v) :: rest)
  /\ (forall e, p = Rejected e <->
      exists v rest, callbacksOf 0 (trace_of run) = (Some e, v) :: rest)
  /\ (p = Pending <-> callbacksOf 0 (trace_of run) = []).
Proof.
  intros run p.
  assert (E : p = decidedBy (callbacksOf 0 (trace_of run))).
  { unfold p, getDevice. cbn [fst snd]. apply settle_decidedBy. }
  split; [reflexivity|]. split; [reflexivity|]. split; [exact E|].
  rewrite E. destruct (callbacksOf 0 (trace_of run)) as [|[[e|] v] rest];
    simpl.
  - split; [|split].
    + split; [discriminate|]. intros [v [rest H]]. discriminate.
    + intro e. split; [discriminate|]. intros [v [rest H]]. discriminate.
    + tauto.
  - split; [|split].
    + split; [discriminate|]. intros [v' [rest' H]]. discriminate.
    + intro e'. split.
      * intro H. inversion H. eauto.
      * intros [v' [rest' H]]. inversion H. reflexivity.
    + split; discriminate.
  - split; [|split].
    + split; eauto.
    + intro e'. split; [discriminate|]. intros [v' [rest' H]]. discriminate.
    + split; discriminate.
Qed.

(** ** open: the completions of the interface setups *)

Lemma successes_app t1 t2 : successes (t1 ++ t2) = successes t1 ++ successes t2.
Proof. unfold successes. rewrite callbacks_app. apply filter_app. Qed.

Lemma failures_app t1 t2 : failures (t1 ++ t2) = failures t1 ++ failures t2.
Proof. unfold failures. rewrite callbacks_app. apply filter_app. Qed.

Lemma raisedErrors_are_failures pf sched :
  filter (fun c => isNone (fst c)) (raisedErrors pf sched) = []
  /\ filter (fun c => negb (isNone (fst c))) (raisedErrors pf sched)
     = raisedErrors pf sched.
Proof.
  unfold raisedErrors. induction sched as [|i l [IH1 IH2]]; [auto|].
  simpl. destruct (raises pf i) eqn:R; [|auto].
  rewrite raises_setupError in R. simpl.
  destruct (setupError pf i); [|discriminate]. simpl.
  rewrite IH1, IH2. auto.
Qed.

Lemma raisedErrors_cons pf i l :
  raisedErrors pf (i :: l) =
    (if raises pf i then [(setupError pf i, VNone)] else [])
    ++ raisedErrors pf l.
Proof. unfold raisedErrors. simpl. destruct (raises pf i); reflexivity. Qed.

Lemma quiet_cons pf i l :
  quiet pf (i :: l) = (if raises pf i then 0 else 1) + quiet pf l.
Proof. unfold quiet. simpl. destruct (raises pf i); reflexivity. Qed.

Lemma usable_quiet pf l :
  existsb (usable pf) l = true -> 1 <= quiet pf l.
Proof.
  intro H. apply existsb_exists in H. destruct H as [x [Ix Ux]].
  unfold usable in Ux. apply andb_true_iff in Ux. destruct Ux as [Ux _].
  assert (I : In x (filter (fun i => negb (raises pf i)) l))
    by (apply filter_In; auto).
  unfold quiet. destruct (filter (fun i => negb (raises pf i)) l);
    [contradiction|simpl; lia].
Qed.

(** Once a pair is stored, later completions only report what raises. *)
Lemma completions_after_pair pf k d ifs s sched c :
  device s = Some d -> interfaces d = Some ifs ->
  isNone (endpoint s) = false ->
  exists c' t, completions pf (Some k) sched c s = (c', s, t)
               /\ callbacks t = raisedErrors pf sched
               /\ Forall (fun ev => snd ev = s) t.
Proof.
  intros Hdev Hifs P. revert c. induction sched as [|i l IH]; intro c.
  - exists c, []. repeat split. constructor.
  - simpl. unfold bind at 1. rewrite raisedErrors_cons.
    destruct (raises pf i) eqn:R.
    + destruct (ifaceReady_raises pf k i c s R) as [e [t [Se [E [Hc Hs]]]]].
      rewrite E. destruct (IH c) as [c' [t' [E' [Hc' Hs']]]]. rewrite E'.
      exists c', (t ++ t'). split; [reflexivity|]. split.
      * rewrite callbacks_app, Hc, Hc', Se. reflexivity.
      * apply Forall_app. auto.
    + destruct (ifaceReady_counts pf k i c s R) as [t0 [E [Hc Hs]]].
      { right. intros [N _]. rewrite N in P. discriminate. }
      rewrite E. destruct (IH (S c)) as [c' [t' [E' [Hc' Hs']]]].
      rewrite E'.
      assert (X : exhaustionReport (S c) s = []).
      { unfold exhaustionReport. rewrite Hdev, Hifs, P.
        rewrite andb_false_r. reflexivity. }
      rewrite X. simpl. rewrite app_nil_r.
      exists c', (t0 ++ t'). split; [reflexivity|]. split.
      * rewrite callbacks_app, Hc, Hc'. reflexivity.
      * apply Forall_app. auto.
Qed.

(** As long as the counter cannot reach the number of interfaces before a
    usable interface completes, the session reports what raises and, at the
    first usable interface, one success. *)
Lemma completions_before_exhaustion pf k d ifs s sched :
  device s = Some d -> interfaces d = Some ifs -> noPair s ->
  forall c,
  c + quiet pf sched <= length ifs ->
  c + quiet pf sched < length ifs \/ existsb (usable pf) sched = true ->
  exists c' s' t,
    completions pf (Some k) sched c s = (c', s', t)
    /\ successes t =
         (if existsb (usable pf) sched then [(None, VSelf)] else [])
    /\ failures t = raisedErrors pf sched
    /\ (if existsb (usable pf) sched
        then exists iface o i,
               In iface sched /\
               scanEndpoints (endpoints iface) = (Some o, Some i) /\
               s' = withPair o i s
        else s' = s)
    /\ Forall (fun ev => snd ev = s \/ snd ev = s') t.
Proof.
  intros Hdev Hifs Hnone.
  induction sched as [|i l IH]; intros c Hle H.
  - exists c, s, []. simpl. repeat split. constructor.
  - simpl completions. unfold bind at 1.
    rewrite raisedErrors_cons. rewrite quiet_cons in Hle, H.
    cbn [existsb] in *. unfold usable at 1 3. unfold usable at 1 in H.
    destruct (raises pf i) eqn:R; cbn [negb andb orb plus] in *.
    + destruct (ifaceReady_raises pf k i c s R) as [e [t [Se [E [Hc Hs]]]]].
      rewrite E.
      destruct (IH c Hle H) as [c' [s' [t' [E' [S' [F' [P' A']]]]]]].
      rewrite E'. exists c', s', (t ++ t').
      split; [reflexivity|]. split; [|split; [|split]].
      * rewrite successes_app, S'. unfold successes. rewrite Hc. reflexivity.
      * rewrite failures_app, F'. unfold failures. rewrite Hc, Se.
        reflexivity.
      * destruct (existsb (usable pf) l); [|exact P'].
        destruct P' as [iface [o [i0 [I P']]]]. exists iface, o, i0.
        split; [right; exact I|exact P'].
      * apply Forall_app. split; [|exact A'].
        eapply Forall_impl; [|exact Hs]. simpl. auto.
    + destruct (bothDirections i) eqn:B; cbn [orb] in *.
      * apply scanEndpoints_bothDirections in B. destruct B as [o [i0 Sc]].
        destruct (ifaceReady_stores pf k i c s o i0 R Sc Hnone)
          as [t [E [Hc Hs]]].
        rewrite E.
        destruct (completions_after_pair pf k d ifs (withPair o i0 s) l c)
          as [c' [t' [E' [Hc' Hs']]]]; try assumption; try reflexivity.
        rewrite E'. exists c', (withPair o i0 s), (t ++ t').
        destruct (raisedErrors_are_failures pf l) as [X1 X2].
        split; [reflexivity|]. split; [|split; [|split]].
        -- rewrite successes_app. unfold successes. rewrite Hc, Hc', X1.
           reflexivity.
        -- rewrite failures_app. unfold failures. rewrite Hc, Hc', X2.
           reflexivity.
        -- exists i, o, i0. split; [left; reflexivity|]. auto.
        -- apply Forall_app. split; [exact Hs|].
           eapply Forall_impl; [|exact Hs']. simpl. auto.
      * destruct (ifaceReady_counts pf k i c s R) as [t0 [E [Hc Hs]]];
          [left; exact B|].
        rewrite E.
        assert (Hlt : S c < length ifs).
        { destruct H as [H|H]; [lia|]. apply usable_quiet in H. lia. }
        assert (X : exhaustionReport (S c) s = []).
        { unfold exhaustionReport. rewrite Hdev, Hifs.
          replace (Nat.eqb (S c) (length ifs)) with false;
            [reflexivity|]. symmetry. apply Nat.eqb_neq. lia. }
        rewrite X. simpl reporting. rewrite app_nil_r.
        destruct (IH (S c)) as [c' [s' [t' [E' [S' [F' [P' A']]]]]]];
          [lia|destruct H; [left; lia|right; assumption]|].
        rewrite E'. exists c', s', (t0 ++ t').
        split; [reflexivity|]. split; [|split; [|split]].
        -- rewrite successes_app, S'. unfold successes. rewrite Hc.
           reflexivity.
        -- rewrite failures_app, F'. unfold failures. rewrite Hc.
           reflexivity.
        -- destruct (existsb (usable pf) l); [|exact P'].
           destruct P' as [iface [o [i0 [I P']]]]. exists iface, o, i0.
           split; [right; exact I|exact P'].
        -- apply Forall_app. split; [|exact A'].
           eapply Forall_impl; [|exact Hs]. simpl. auto.
Qed.

(** When no interface raises and none has both directions, the counter
    counts every completion, and the last one reports the missing pair. *)
Lemma completions_exhausted pf k d ifs s sched :
  device s = Some d -> interfaces d = Some ifs -> noPair s ->
  Forall (fun i => raises pf i = false /\ bothDirections i = false) sched ->
  forall c, c + length sched <= length ifs ->
  exists t,
    completions pf (Some k) sched c s = (c + length sched, s, t)
    /\ Forall (fun ev => snd ev = s) t
    /\ (c + length sched < length ifs \/ sched = [] -> callbacks t = [])
    /\ (sched <> [] -> c + length sched = length ifs ->
        callbacks t = [(Some ErrNoEndpointPair, VNone)]
        /\ exists t0,
             t = t0 ++ [(Callback k (Some ErrNoEndpointPair) VNone, s)]).
Proof.
  intros Hdev Hifs Hnone.
  induction sched as [|i l IH]; intros F c Hle.
  - exists []. simpl. rewrite Nat.add_0_r.
    repeat split; auto; contradiction.
  - inversion F as [|? ? [R B] F']; subst.
    simpl completions. unfold bind at 1.
    destruct (ifaceReady_counts pf k i c s R) as [t0 [E [Hc Hs]]];
      [left; exact B|].
    rewrite E. simpl length in *.
    destruct (IH F' (S c)) as [t' [E' [Hs' [Hq Hx]]]]; [lia|].
    rewrite E'. replace (S c + length l) with (c + S (length l)) by lia.
    assert (X : exhaustionReport (S c) s =
                if Nat.eqb (S c) (length ifs)
                then [(Some ErrNoEndpointPair, VNone)] else []).
    { unfold exhaustionReport. rewrite Hdev, Hifs.
      destruct Hnone as [No _]. rewrite No, andb_true_r. reflexivity. }
    rewrite X. clear X. eexists. split; [reflexivity|].
    destruct (Nat.eqb (S c) (length ifs)) eqn:Q.
    + apply Nat.eqb_eq in Q. assert (l = []) by (destruct l; simpl in *; [auto|lia]).
      subst l. simpl in E'. inversion E'. subst t'.
      simpl. split; [|split].
      * repeat (apply Forall_app; split); auto; repeat constructor.
      * intros [H|H]; [lia|discriminate].
      * intros _ _. rewrite app_nil_r, callbacks_app, Hc. split; [reflexivity|].
        exists t0. reflexivity.
    + apply Nat.eqb_neq in Q. simpl reporting. rewrite app_nil_r.
      split; [|split].
      * apply Forall_app. auto.
      * intros [H|H]; [|discriminate].
        rewrite callbacks_app, Hc. apply Hq. left. lia.
      * intros _ Heq. destruct l as [|j l'].
        { simpl in Heq. lia. }
        destruct Hx as [Hx1 [t1 Hx2]]; [discriminate|simpl in *; lia|].
        rewrite callbacks_app, Hc, Hx1. split; [reflexivity|].
        exists (t0 ++ t1). rewrite Hx2, app_assoc. reflexivity.
Qed.

Lemma filter_Permutation {A} (f : A -> bool) (l l' : list A) :
  Permutation l l' -> Permutation (filter f l) (filter f l').
Proof.
  induction 1 as [|x l l' _ IH|x y l|l l' l'' _ IH1 _ IH2]; simpl.
  - constructor.
  - destruct (f x); [constructor|]; exact IH.
  - destruct (f x), (f y); try reflexivity. constructor.
  - etransitivity; eassumption.
Qed.

Lemma existsb_Permutation {A} (f : A -> bool) (l l' : list A) :
  Permutation l l' -> existsb f l = existsb f l'.
Proof.
  intro P. destruct (existsb f l') eqn:E.
  - apply existsb_exists in E. destruct E as [x [I H]].
    apply existsb_exists. exists x. split; [|exact H].
    eapply Permutation_in; [symmetry; exact P|exact I].
  - destruct (existsb f l) eqn:E'; [|reflexivity].
    apply existsb_exists in E'. destruct E' as [x [I H]].
    assert (existsb f l' = true).
    { apply existsb_exists. exists x. split; [|exact H].
      eapply Permutation_in; eassumption. }
    congruence.
Qed.

Lemma quiet_raising pf l :
  quiet pf l + length (filter (raises pf) l) = length l.
Proof.
  unfold quiet. induction l as [|i l IH]; [reflexivity|]. simpl.
  destruct (raises pf i); simpl; lia.
Qed.

Lemma open_enumerates cb s d ifs :
  enumerates s d ifs ->
  exists t, open cb s = (ifs, s, t)
            /\ callbacks t = [] /\ Forall (fun ev => snd ev = s) t.
Proof.
  intros [R [D [O [T [I F]]]]].
  assert (G : forall l, Forall (fun i => setAltSetting_throws i = None) l ->
    exists t, forEach_setAltSetting cb l s = (l, s, t)
              /\ callbacks t = [] /\ Forall (fun ev => snd ev = s) t).
  { induction l as [|i l IH]; intro Fl.
    - exists []. repeat split. constructor.
    - inversion Fl as [|? ? Hi Fl']; subst.
      destruct (IH Fl') as [t [E [Hc Hs]]].
      simpl. run. rewrite Hi, E. eexists. split; [reflexivity|].
      split.
      + unfold callbacks, actions in *. simpl. rewrite app_nil_r. exact Hc.
      + simpl. constructor; [reflexivity|]. rewrite app_nil_r. exact Hs. }
  destruct (G ifs F) as [t [E [Hc Hs]]].
  unfold open. run. rewrite R, D, O, T, I, E.
  eexists. split; [reflexivity|]. split.
  - unfold callbacks, actions in *. simpl. exact Hc.
  - simpl. constructor; [reflexivity|]. exact Hs.
Qed.

Lemma callbacks_split t :
  length (callbacks t) = length (successes t) + length (failures t).
Proof.
  unfold successes, failures.
  induction (callbacks t) as [|c l IH]; [reflexivity|]. simpl.
  destruct (isNone (fst c)); simpl; lia.
Qed.

Lemma forallb_quiet_no_raising pf l :
  forallb (fun i => negb (raises pf i)) l = true <->
  filter (raises pf) l = [].
Proof.
  induction l as [|i l IH]; simpl; [tauto|].
  destruct (raises pf i); simpl; [split; discriminate|exact IH].
Qed.

Lemma scheduled_in_order l :
  scheduled l (seq 0 (length l)) = l.
Proof.
  assert (G : forall pre l : list Interface,
    flat_map (fun n => match nth_error (pre ++ l) n with
                       | Some iface => [iface]
                       | None => @nil Interface
                       end) (seq (length pre) (length l)) = l).
  { intros pre l0. revert pre. induction l0 as [|x l0 IH]; intro pre.
    - reflexivity.
    - simpl. rewrite nth_error_app2, Nat.sub_diag by lia. simpl.
      f_equal. specialize (IH (pre ++ [x])).
      rewrite <- app_assoc, length_app in IH. simpl in IH.
      rewrite Nat.add_1_r in IH. exact IH. }
  apply (G [] l).
Qed.

Lemma scheduled_Permutation l order :
  Permutation order (seq 0 (length l)) -> Permutation (scheduled l order) l.
Proof.
  intro P. rewrite <- (scheduled_in_order l) at 2.
  unfold scheduled. apply Permutation_flat_map. exact P.
Qed.

(** The whole run of [open] on a session that reaches the interface loop:
    what the callback sees once every completion has run. *)
Lemma openThen_callbacks pf k s d ifs order :
  enumerates s d ifs -> noPair s ->
  Permutation order (seq 0 (length ifs)) ->
  exists t,
    trace_of (openThen pf (Some k) order s) = t
    /\ successes t =
         (if existsb (usable pf) ifs then [(None, VSelf)] else [])
    /\ failures t =
         raisedErrors pf (scheduled ifs order) ++
         (if reportsNoPair pf ifs then [(Some ErrNoEndpointPair, VNone)]
          else [])
    /\ (reportsNoPair pf ifs = true ->
        state_of (openThen pf (Some k) order s) = s
        /\ Forall (fun ev => snd ev = s) t
        /\ exists t0,
             t = t0 ++ [(Callback k (Some ErrNoEndpointPair) VNone, s)])
    /\ (existsb (usable pf) ifs = false ->
        state_of (openThen pf (Some k) order s) = s)
    /\ (existsb (usable pf) ifs = true ->
        exists iface, In iface ifs /\
          pairFrom iface (state_of (openThen pf (Some k) order s))).
Proof.
  intros En Hnone Po.
  destruct (open_enumerates (Some k) s d ifs En) as [t0 [E0 [Hc0 Hs0]]].
  destruct En as [_ [Hdev [_ [_ [Hifs _]]]]].
  unfold openThen, bind. rewrite E0.
  pose proof (scheduled_Permutation ifs order Po) as P.
  remember (scheduled ifs order) as sched eqn:Hsched in *. clear Hsched.
  assert (Qs : quiet pf sched = quiet pf ifs)
    by (unfold quiet; apply Permutation_length, filter_Permutation, P).
  assert (Us : existsb (usable pf) sched = existsb (usable pf) ifs)
    by (apply existsb_Permutation, P).
  assert (Ls : length sched = length ifs) by (apply Permutation_length, P).
  pose proof (quiet_raising pf ifs) as QR.
  assert (S0 : successes t0 = []) by (unfold successes; rewrite Hc0; reflexivity).
  assert (F0 : failures t0 = []) by (unfold failures; rewrite Hc0; reflexivity).
  unfold reportsNoPair.
  destruct (existsb (usable pf) ifs) eqn:U.
  - (* some interface is usable *)
    destruct (completions_before_exhaustion pf k d ifs s sched Hdev Hifs
                Hnone 0) as [c' [s' [t [E [Sx [Fx [Px _]]]]]]];
      [simpl; lia|right; congruence|].
    rewrite E. unfold trace_of, state_of. cbn [fst snd negb andb].
    eexists. split; [reflexivity|]. rewrite Us in Sx, Px.
    rewrite successes_app, failures_app, S0, F0, Sx, Fx, app_nil_r.
    repeat split; try discriminate.
    intros _. destruct Px as [iface [o [i [I [Sc ->]]]]].
    exists iface. split; [eapply Permutation_in; eassumption|].
    apply scanEndpoints_both in Sc. destruct Sc as [Io [Ii [Do Di]]].
    exists o, i. simpl. auto 10.
  - cbn [negb andb].
    destruct (forallb (fun i => negb (raises pf i)) ifs) eqn:Q.
    + (* nothing raises, nothing is usable *)
      assert (Fa : Forall (fun i => raises pf i = false /\
                                    bothDirections i = false) sched).
      { apply Forall_forall. intros i I.
        assert (I' : In i ifs) by (eapply Permutation_in; eassumption).
        rewrite forallb_forall in Q. specialize (Q i I').
        apply negb_true_iff in Q. split; [exact Q|].
        destruct (bothDirections i) eqn:B; [|reflexivity].
        assert (existsb (usable pf) ifs = true).
        { apply existsb_exists. exists i. split; [exact I'|].
          unfold usable. rewrite Q, B. reflexivity. }
        congruence. }
      destruct (completions_exhausted pf k d ifs s sched Hdev Hifs Hnone
                  Fa 0) as [t [E [Hs [Hq Hx]]]]; [simpl; lia|].
      rewrite E. unfold trace_of, state_of. cbn [fst snd andb].
      eexists. split; [reflexivity|].
      rewrite successes_app, failures_app, S0, F0.
      assert (Rz : raisedErrors pf sched = []).
      { unfold raisedErrors.
        replace (filter (raises pf) sched) with (@nil Interface);
          [reflexivity|].
        symmetry. apply forallb_quiet_no_raising.
        apply forallb_forall. intros i I. apply negb_true_iff.
        rewrite Forall_forall in Fa. apply Fa. exact I. }
      rewrite Rz. cbn [app].
      destruct (Nat.eqb (length ifs) 0) eqn:Z; cbn [negb].
      * apply Nat.eqb_eq in Z. destruct sched; [|simpl in Ls; lia].
        simpl in E. inversion E. subst.
        repeat split; try discriminate.
      * apply Nat.eqb_neq in Z.
        destruct Hx as [Hx [t1 Ht1]];
          [intro; subst; simpl in Ls; lia|simpl; lia|].
        unfold successes, failures. rewrite Hx. cbn.
        repeat split; try discriminate.
        -- apply Forall_app. auto.
        -- exists (t0 ++ t1). rewrite Ht1, app_assoc. reflexivity.
    + (* something raises: the counter stops short *)
      assert (Rn : filter (raises pf) ifs <> []).
      { intro H. apply forallb_quiet_no_raising in H. congruence. }
      assert (1 <= length (filter (raises pf) ifs))
        by (destruct (filter (raises pf) ifs); [congruence|simpl; lia]).
      destruct (completions_before_exhaustion pf k d ifs s sched Hdev Hifs
                  Hnone 0) as [c' [s' [t [E [Sx [Fx [Px _]]]]]]];
        [simpl; lia|left; simpl; lia|].
      rewrite E. unfold trace_of, state_of. cbn [fst snd andb].
      eexists. split; [reflexivity|]. rewrite Us in Sx, Px.
      rewrite successes_app, failures_app, S0, F0, Sx, Fx. cbn [app].
      rewrite app_nil_r.
      repeat split; try discriminate. intros _. exact Px.
Qed.

Lemma reachable_closed_noPair s :
  reachable s -> _isOpen s = false -> noPair s.
Proof. intros R O. apply reachable_Inv in R. apply R. exact O. Qed.

(** C1. A session never holds a pair that mixes interfaces: whatever has
    been called, it holds no endpoint at all or the first OUT and the first
    IN endpoint of one and the same interface.  The completion of an
    interface without both directions leaves the session as it was.  When
    [open] enumerates interfaces none of which has both directions (an
    OUT-only and an IN-only interface, say) and their setups succeed, the
    callback gets EndpointPairNotFound once and no endpoint is stored at
    any moment of the run. *)
Theorem pair_never_spans_interfaces :
  (forall s, reachable s -> pairInvariant s)
  /\ (forall pf cb iface c s, bothDirections iface = false ->
        state_of (ifaceReady pf cb iface c s) = s)
  /\ (forall pf k s d ifs order,
        reachable s -> enumerates s d ifs ->
        Permutation order (seq 0 (length ifs)) ->
        ifs <> [] ->
        Forall (fun i => raises pf i = false /\ bothDirections i = false)
               ifs ->
        let r := openThen pf (Some k) order s in
        callbacks (trace_of r) = [(Some ErrNoEndpointPair, VNone)]
        /\ noPair (state_of r) /\ _isOpen (state_of r) = false
        /\ Forall (fun ev => noPair (snd ev)) (trace_of r))
  /\ (forall pf k s d ifs order,
        reachable s -> enumerates s d ifs ->
        Permutation order (seq 0 (length ifs)) ->
        let s' := state_of (openThen pf (Some k) order s) in
        noPair s' \/ exists iface, In iface ifs /\ pairFrom iface s').
Proof.
  split; [|split; [|split]].
  - intros s R. apply reachable_Inv in R. apply R.
  - intros pf cb iface c s B.
    destruct (ifaceReady_state pf cb iface c s) as [H|[o [i [Sc _]]]];
      [exact H|].
    assert (bothDirections iface = true)
      by (apply scanEndpoints_bothDirections; eauto).
    congruence.
  - intros pf k s d ifs order R En Po Ne Fa r.
    assert (O : _isOpen s = false) by apply En.
    pose proof (reachable_closed_noPair s R O) as N.
    destruct (openThen_callbacks pf k s d ifs order En N Po)
      as [t [Et [Sx [Fx [Hx _]]]]].
    pose proof (scheduled_Permutation ifs order Po) as P.
    remember (scheduled ifs order) as sched eqn:Hsched in *. clear Hsched.
    assert (U : existsb (usable pf) ifs = false).
    { destruct (existsb (usable pf) ifs) eqn:U; [|reflexivity].
      apply existsb_exists in U. destruct U as [i [I U]].
      rewrite Forall_forall in Fa. destruct (Fa i I) as [_ B].
      unfold usable in U. rewrite B, andb_false_r in U. discriminate. }
    assert (Y : reportsNoPair pf ifs = true).
    { unfold reportsNoPair. rewrite U. simpl.
      apply andb_true_iff. split.
      - apply forallb_forall. intros i I. rewrite Forall_forall in Fa.
        destruct (Fa i I) as [Ri _]. rewrite Ri. reflexivity.
      - destruct ifs; [contradiction|reflexivity]. }
    destruct (Hx Y) as [Es [Hs [t1 Ht1]]].
    unfold r. rewrite Et, Es.
    assert (Rz : raisedErrors pf sched = []).
    { unfold raisedErrors.
      replace (filter (raises pf) sched) with (@nil Interface);
        [reflexivity|].
      symmetry. apply forallb_quiet_no_raising.
      apply forallb_forall. intros i I. apply negb_true_iff.
      rewrite Forall_forall in Fa. apply Fa.
      eapply Permutation_in; eassumption. }
    rewrite U in Sx. rewrite Y, Rz in Fx. simpl in Fx.
    split; [|split; [exact N|split; [exact O|]]].
    + pose proof (callbacks_split t) as L. rewrite Sx, Fx in L.
      simpl in L. unfold failures in Fx.
      destruct (callbacks t) as [|c [|c' l]]; simpl in L; try lia.
      simpl in Fx. destruct (negb (isNone (fst c))); [exact Fx|discriminate].
    + eapply Forall_impl; [|exact Hs]. intros ev ->. exact N.
  - intros pf k s d ifs order R En P s'.
    assert (O : _isOpen s = false) by apply En.
    pose proof (reachable_closed_noPair s R O) as N.
    destruct (openThen_callbacks pf k s d ifs order En N P)
      as [t [_ [_ [_ [_ [Hf Ht]]]]]].
    destruct (existsb (usable pf) ifs).
    + right. apply Ht. reflexivity.
    + left. unfold s'. rewrite Hf; [exact N|reflexivity].
Qed.

(** The device of the spec's scenario: one OUT-only and one IN-only
    interface, whichever setup completes first. *)
Example split_directions_not_paired :
  let dev := printerWith [ifaceOutOnly; ifaceInOnly] in
  callbacks (trace_of (openThen "linux" (Some 0) [0; 1] (boundTo dev)))
    = [(Some ErrNoEndpointPair, VNone)]
  /\ callbacks (trace_of (openThen "linux" (Some 0) [1; 0] (boundTo dev)))
    = [(Some ErrNoEndpointPair, VNone)]
  /\ state_of (openThen "win32" (Some 0) [1; 0] (boundTo dev))
     = boundTo dev.
Proof. repeat split. Qed.

(** C3 as stated fails: a claim error on one interface and a pair on
    another give two invocations of the callback, and a device without
    interfaces gives none. *)
Lemma open_callback_not_exactly_once :
  callbacks (trace_of (openThen "linux" (Some 0) [0; 1]
                (boundTo (printerWith [ifaceClaimFails; ifaceBoth1]))))
    = [(Some (TransportError (-6)), VNone); (None, VSelf)]
  /\ callbacks (trace_of (openThen "linux" (Some 0) []
                  (boundTo (printerWith []))))
    = [].
Proof. split; reflexivity. Qed.

Lemma open_stopsEarly k s :
  stopsEarly s ->
  exists c, callbacks (trace_of (open (Some k) s)) = [c]
            /\ result (open (Some k) s) = []
            /\ state_of (open (Some k) s) = s.
Proof.
  intro H. unfold stopsEarly in H. unfold open. run.
  destruct (_isResetting s) eqn:R; [eexists; repeat split|].
  destruct (device s) as [d|] eqn:D; [|eexists; repeat split].
  destruct (_isOpen s) eqn:O; [eexists; repeat split|].
  destruct (open_throws d) as [e|] eqn:T; [eexists; repeat split|].
  destruct (interfaces d) as [ifs|] eqn:I; [|eexists; repeat split].
  exfalso. destruct H as [H|[H|[H|[d' [E [H|H]]]]]]; try congruence;
    inversion E; subst; congruence.
Qed.

(** What the count of C3 depends on besides the device: the session must
    be left alone between [open] and its completions.  When a second [open]
    overlaps the first, the first callback gets the success and the second
    is never invoked; when the device is detached before the setups of an
    OUT-only and an IN-only interface complete, the callback gets a type
    error from each of them. *)
Example open_completions_interleaved :
  callbacksOf 0 (trace_of (performAll
      [COpen (Some 0); COpen (Some 1);
       CIfaceReady "linux" (Some 0) ifaceBoth 0;
       CIfaceReady "linux" (Some 1) ifaceBoth 0]
      (boundTo (printerWith [ifaceBoth]))))
    = [(None, VSelf)]
  /\ callbacksOf 1 (trace_of (performAll
      [COpen (Some 0); COpen (Some 1);
       CIfaceReady "linux" (Some 0) ifaceBoth 0;
       CIfaceReady "linux" (Some 1) ifaceBoth 0]
      (boundTo (printerWith [ifaceBoth]))))
    = []
  /\ callbacks (trace_of (performAll
      [COpen (Some 0); CDetach (printerWith [ifaceOutOnly; ifaceInOnly]);
       CIfaceReady "linux" (Some 0) ifaceOutOnly 0;
       CIfaceReady "linux" (Some 0) ifaceInOnly 1]
      (boundTo (printerWith [ifaceOutOnly; ifaceInOnly]))))
    = [(Some ErrNotAnArray, VNone); (Some ErrNotAnArray, VNone)].
Proof. repeat split. Qed.

(** C3, amended.  An [open] that a guard answers, or whose device-open
    throws, invokes the callback exactly once and leaves nothing pending.
    For an [open] that reaches the interface loop and whose setups then
    complete (in any order) with no other call on the session in between
    (no further [open], no [reset] or [close], no hot-plug event), once
    every setup has completed: the callback has been invoked once for each
    interface whose setup raised, with that error; once with success if
    some interface that did not raise has both directions; and once with
    EndpointPairNotFound, as the very last event, exactly when there is an
    interface, none raised and none has both directions.  So in such a run,
    when no setup raises and the device has an interface, the callback is
    invoked exactly once, and EndpointPairNotFound is never reported more
    than once. *)
Theorem open_completions_reported (pf : string) (k : CallbackFn) (s : USB) :
  reachable s ->
  (stopsEarly s ->
   exists c, callbacks (trace_of (open (Some k) s)) = [c]
             /\ result (open (Some k) s) = []
             /\ state_of (open (Some k) s) = s)
  /\ (forall d ifs order,
      enumerates s d ifs -> Permutation order (seq 0 (length ifs)) ->
      let t := trace_of (openThen pf (Some k) order s) in
      successes t = (if existsb (usable pf) ifs then [(None, VSelf)] else [])
      /\ failures t =
           raisedErrors pf (scheduled ifs order) ++
           (if reportsNoPair pf ifs then [(Some ErrNoEndpointPair, VNone)]
            else [])
      /\ length (callbacks t) =
           length (filter (raises pf) ifs)
           + (if existsb (usable pf) ifs || reportsNoPair pf ifs
              then 1 else 0)
      /\ (ifs <> [] -> Forall (fun i => raises pf i = false) ifs ->
          length (callbacks t) = 1)
      /\ (reportsNoPair pf ifs = true ->
          callbacks t = [(Some ErrNoEndpointPair, VNone)]
          /\ exists t0,
               t = t0 ++ [(Callback k (Some ErrNoEndpointPair) VNone, s)])).
Proof.
  intros R. split; [apply open_stopsEarly|].
  intros d ifs order En Po t.
  assert (O : _isOpen s = false) by apply En.
  pose proof (reachable_closed_noPair s R O) as N.
  destruct (openThen_callbacks pf k s d ifs order En N Po)
    as [t' [Et [Sx [Fx [Hx _]]]]].
  fold t in Et. subst t'.
  pose proof (scheduled_Permutation ifs order Po) as P.
  remember (scheduled ifs order) as sched eqn:Hsched in *. clear Hsched.
  assert (Lr : length (raisedErrors pf sched) =
               length (filter (raises pf) ifs)).
  { unfold raisedErrors. rewrite length_map.
    apply Permutation_length, filter_Permutation, P. }
  assert (Len : length (callbacks t) =
     length (filter (raises pf) ifs)
     + (if existsb (usable pf) ifs || reportsNoPair pf ifs then 1 else 0)).
  { rewrite callbacks_split, Sx, Fx, length_app, Lr.
    unfold reportsNoPair.
    destruct (existsb (usable pf) ifs); cbn [negb andb orb length]; [lia|].
    destruct (forallb (fun i => negb (raises pf i)) ifs
              && negb (Nat.eqb (length ifs) 0)); simpl; lia. }
  split; [exact Sx|]. split; [exact Fx|]. split; [exact Len|]. split.
  - intros Ne Fa. rewrite Len.
    assert (Q : forallb (fun i => negb (raises pf i)) ifs = true).
    { apply forallb_forall. intros i I. rewrite Forall_forall in Fa.
      rewrite (Fa i I). reflexivity. }
    pose proof (proj1 (forallb_quiet_no_raising pf ifs) Q) as Z.
    rewrite Z. unfold reportsNoPair. rewrite Q.
    destruct ifs; [contradiction|].
    destruct (existsb (usable pf) (i :: ifs)); reflexivity.
  - intro Y. destruct (Hx Y) as [_ [_ Ht]]. split; [|exact Ht].
    assert (U : existsb (usable pf) ifs = false).
    { unfold reportsNoPair in Y.
      destruct (existsb (usable pf) ifs); [discriminate|reflexivity]. }
    assert (Z : raisedErrors pf sched = []).
    { destruct (raisedErrors pf sched) eqn:Z; [reflexivity|].
      exfalso. simpl in Lr.
      unfold reportsNoPair in Y. rewrite U in Y. simpl in Y.
      apply andb_true_iff in Y. destruct Y as [Y _].
      apply forallb_quiet_no_raising in Y. rewrite Y in Lr. discriminate. }
    rewrite U in Sx. rewrite Y, Z in Fx. simpl in Fx.
    pose proof (callbacks_split t) as L. rewrite Sx, Fx in L. simpl in L.
    unfold failures in Fx.
    destruct (callbacks t) as [|c [|c' l]]; simpl in L; try lia.
    simpl in Fx. destruct (negb (isNone (fst c))); [exact Fx|discriminate].
Qed.

Lemma open_completions_reported_witness :
  reachable (boundTo (printerWith [ifaceOutOnly; ifaceInOnly]))
  /\ enumerates (boundTo (printerWith [ifaceOutOnly; ifaceInOnly]))
       (printerWith [ifaceOutOnly; ifaceInOnly]) [ifaceOutOnly; ifaceInOnly]
  /\ Permutation [1; 0] (seq 0 (length [ifaceOutOnly; ifaceInOnly]))
  /\ length (callbacks (trace_of (openThen "linux" (Some 0) [1; 0]
       (boundTo (printerWith [ifaceOutOnly; ifaceInOnly]))))) = 1.
Proof.
  assert (R : reachable (boundTo (printerWith [ifaceOutOnly; ifaceInOnly])))
    by apply reach_new.
  assert (En : enumerates (boundTo (printerWith [ifaceOutOnly; ifaceInOnly]))
       (printerWith [ifaceOutOnly; ifaceInOnly]) [ifaceOutOnly; ifaceInOnly])
    by (repeat split; repeat constructor).
  assert (P : Permutation [1; 0] (seq 0 (length [ifaceOutOnly; ifaceInOnly])))
    by apply perm_swap.
  split; [exact R|]. split; [exact En|]. split; [exact P|].
  exact (proj1 (proj2 (proj2 (proj2
    (proj2 (open_completions_reported "linux" 0 _ R) _ _ _ En P))))
    ltac:(discriminate) ltac:(repeat constructor)).
Defined.

(** ** Paths beside the claims *)

(** When [device.reset] throws on submission the flags are cleared but the
    session keeps its pair and stays open: only a completion closes it. *)
Remark reset_throw_keeps_session_open (d : Device) (e : Error) (s : USB)
    (cb : CallbackFn) :
  device s = Some d -> _isResetting s = false -> reset_throws d = Some e ->
  let r := reset (Some cb) s in
  _isOpen (state_of r) = _isOpen s
  /\ endpoint (state_of r) = endpoint s
  /\ deviceToPcEndpoint (state_of r) = deviceToPcEndpoint s
  /\ _isResetting (state_of r) = false
  /\ _readInFlight (state_of r) = false
  /\ callbacks (trace_of r) = [(Some e, VNone)].
Proof.
  intros D R T. unfold reset. run. rewrite D, R, T. fields.
  repeat split.
Qed.

(** A [reset] met by the already-resetting guard succeeds at once and
    leaves the flag set. *)
Remark reset_while_resetting (d : Device) (s : USB) (cb : CallbackFn) :
  device s = Some d -> _isResetting s = true ->
  reset (Some cb) s = (false, s, [(Callback cb None VNone, s)]).
Proof. intros D R. unfold reset. run. rewrite D, R. reflexivity. Qed.

(** ** The earlier revision *)

(** The earlier [open] fills the two endpoints independently, so an
    OUT-only and an IN-only interface make a pair across interfaces, and it
    reports success as soon as an OUT endpoint is known. *)
Example legacy_pair_spans_interfaces :
  let r := Legacy.completions "linux" (Some 0) [ifaceOutOnly; ifaceInOnly] 0
             (boundTo (printerWith [ifaceOutOnly; ifaceInOnly])) in
  endpoint (state_of r) = Some (epOut 1)
  /\ deviceToPcEndpoint (state_of r) = Some (epIn 129)
  /\ callbacks (trace_of r) = [(None, VSelf); (None, VSelf)].
Proof. repeat split. Qed.

(** The earlier [close] never clears the closing flag: every later [close]
    is met by the guard. *)
Example legacy_close_stays_closing :
  _isClosing (state_of (Legacy.close (Some 0) unbound)) = true
  /\ _isClosing (state_of (Legacy.close (Some 0)
       (state_of (completions "linux" None [ifaceBoth] 0
          (boundTo (printerWith [ifaceBoth])))))) = true
  /\ _isClosing (state_of (close (Some 0) unbound)) = false.
Proof. repeat split. Qed.

(** ** The scenario of a printer with one interface *)

Example one_interface_scenario :
  let dev := printerWith [ifaceBoth] in
  let opened := openThen "linux" (Some 0) [0] (boundTo dev) in
  let out := withTimeout 15000 (epOut 1) in
  let inp := withTimeout 700 (epIn 129) in
  callbacks (trace_of opened) = [(None, VSelf)]
  /\ emitted "connect" (trace_of opened) = [PDevice (Some dev)]
  /\ endpoint (state_of opened) = Some out
  /\ deviceToPcEndpoint (state_of opened) = Some inp
  /\ _isOpen (state_of opened) = true
  /\ actions (trace_of (write [] (Some 1) (state_of opened)))
     = [Emit "data" (PData []); Native (NTransferOut out [])]
  /\ nativeCalls (trace_of (read (Some 2) (state_of opened)))
     = [NTransferIn inp 8].
Proof. repeat split. Qed.

(** * Further properties *)

(** ** What a call may do to the pair and the open flag *)

Lemma perform_open_state cb s : state_of (perform (COpen cb) s) = s.
Proof.
  assert (G : forall l, state_of (forEach_setAltSetting cb l s) = s).
  { induction l as [|x l IH]; [reflexivity|]. simpl. unfold bind at 1.
    simpl. destruct (setAltSetting_throws x).
    - destruct cb; reflexivity.
    - unfold bind. unfold state_of in IH.
      destruct (forEach_setAltSetting cb l s) as [[p s1] t1].
      simpl in *. exact IH. }
  simpl. unfold bind at 1.
  destruct (open cb s) as [[p s1] t1] eqn:E. simpl.
  assert (X : s = s1); [|subst s1; reflexivity].
  unfold open in E. run_in E.
  destruct (_isResetting s); [destruct cb; inversion E; auto|].
  destruct (device s) as [d|]; [|destruct cb; inversion E; auto].
  destruct (_isOpen s); [destruct cb; inversion E; auto|].
  destruct (open_throws d); [destruct cb; inversion E; auto|].
  destruct (interfaces d) as [ifs|];
    [|destruct cb; inversion E; auto].
  specialize (G ifs). unfold state_of in G.
  destruct (forEach_setAltSetting cb ifs s) as [[p2 s2] t2].
  simpl in *. inversion E. congruence.
Qed.

Lemma perform_ifaceReady_state pf cb iface c s :
  state_of (perform (CIfaceReady pf cb iface c) s)
  = state_of (ifaceReady pf cb iface c s).
Proof.
  simpl. unfold bind, state_of.
  destruct (ifaceReady pf cb iface c s) as [[p s1] t1]. reflexivity.
Qed.

Lemma perform_frame c s :
  let s' := state_of (perform c s) in
  (endpoint s' = endpoint s /\ deviceToPcEndpoint s' = deviceToPcEndpoint s
   /\ _isOpen s' = _isOpen s)
  \/ (noPair s' /\ _isOpen s' = false)
  \/ (exists o i, noPair s /\ s' = withPair o i s).
Proof.
  cbv zeta. destruct c.
  - rewrite perform_open_state. left. solve_frame.
  - rewrite perform_ifaceReady_state.
    destruct (ifaceReady_state platform0 callback iface counter s)
      as [H|[o [i [Sc [N H]]]]]; rewrite H.
    + left. solve_frame.
    + right. right. exists o, i. split; [exact N|reflexivity].
  - simpl. unfold write. run. left.
    destruct (_isResetting s || _isClosing s);
      [destruct callback; solve_frame|].
    destruct (endpoint s) as [ep|] eqn:Ee; [|destruct callback; solve_frame].
    destruct (transfer_throws ep); destruct callback; solve_frame.
  - simpl. unfold writeDone. run. left.
    destruct err, callback; solve_frame.
  - simpl. unfold read. run. left.
    destruct (_isResetting s || _isClosing s);
      [destruct callback; solve_frame|].
    destruct (deviceToPcEndpoint s) as [ep|] eqn:Ee;
      [|destruct callback; solve_frame].
    destruct (_readInFlight s); [destruct callback; solve_frame|].
    destruct (transfer_throws ep); destruct callback; solve_frame.
  - simpl. unfold readDone. run. left.
    destruct err, callback; solve_frame.
  - simpl. unfold reset. run. left.
    destruct (device s) as [d|]; [|destruct callback; solve_frame].
    destruct (_isResetting s); [destruct callback; solve_frame|].
    destruct (reset_throws d); destruct callback; solve_frame.
  - simpl. unfold resetDone. run. right. left. unfold noPair.
    destruct callback; fields; solve_frame.
  - simpl. unfold close. run.
    destruct (_isClosing s); [left; destruct callback; solve_frame|].
    right. left. unfold noPair.
    destruct (isNone (device s) || negb (_isOpen s));
      [|destruct (device s) eqn:Ed]; destruct callback; fields; solve_frame.
  - simpl. unfold _onDetach. run.
    destruct (isBound d s); [|left; solve_frame].
    right. left. unfold noPair. fields. solve_frame.
  - simpl. unfold _onAttach. run. left.
    destruct (device s) as [d0|];
      [|destruct (findPrinter env) as [|d0 l]];
      destruct (isBound d _); solve_frame.
Qed.

(** X1. On every reachable session the open flag and the pair go
    together: an open session holds the first OUT and IN endpoint of one
    interface, with timeouts 15000 and 700, and a closed one holds no
    endpoint.  So on an open session that is not resetting a write is
    never answered NotReady: it emits [data] and submits the transfer. *)
Theorem open_flag_matches_pair (s : USB) :
  reachable s ->
  (_isOpen s = true ->
   exists o i, endpoint s = Some o /\ deviceToPcEndpoint s = Some i
               /\ direction o = "out" /\ direction i = "in"
               /\ timeout o = 15000%Z /\ timeout i = 700%Z)
  /\ (_isOpen s = false -> endpoint s = None /\ deviceToPcEndpoint s = None)
  /\ (_isOpen s = true -> _isResetting s = false ->
      forall data k, exists ep,
        endpoint s = Some ep /\
        firstn 2 (actions (trace_of (write data (Some k) s)))
          = [Emit "data" (PData data); Native (NTransferOut ep data)]).
Proof.
  intro R.
  assert (P : _isOpen s = true -> ~ noPair s).
  { induction R as [env vid pid|s c R IH]; [discriminate|].
    pose proof (perform_frame c s) as F. cbv zeta in F.
    destruct F as [[Eo [Ei Eq]]|[[N Eq]|[o [i [N Es]]]]].
    - rewrite Eq. intros O [No Ni]. apply (IH O).
      split; congruence.
    - rewrite Eq. discriminate.
    - rewrite Es. intros _ [No _]. discriminate. }
  pose proof (reachable_Inv s R) as [C [Hc Hp]].
  assert (Q : _isOpen s = true ->
   exists o i, endpoint s = Some o /\ deviceToPcEndpoint s = Some i
               /\ direction o = "out" /\ direction i = "in"
               /\ timeout o = 15000%Z /\ timeout i = 700%Z).
  { intro O. destruct Hp as [N|[iface [o [i [_ [_ [Do [Di [Eo Ei]]]]]]]]].
    - exfalso. exact (P O N).
    - exists (withTimeout 15000 o), (withTimeout 700 i). simpl. auto 10. }
  split; [exact Q|]. split; [exact Hc|].
  intros O Rs data k. destruct (Q O) as [o [i [Eo _]]].
  exists o. split; [exact Eo|].
  unfold write. run. rewrite Rs, C, Eo. simpl.
  destruct (transfer_throws o); reflexivity.
Qed.

Lemma open_flag_matches_pair_witness :
  reachable (state_of (perform (CIfaceReady "linux" None ifaceBoth 0)
                         (boundTo (printerWith [ifaceBoth]))))
  /\ exists o i,
       endpoint (state_of (perform (CIfaceReady "linux" None ifaceBoth 0)
                             (boundTo (printerWith [ifaceBoth])))) = Some o
       /\ deviceToPcEndpoint
            (state_of (perform (CIfaceReady "linux" None ifaceBoth 0)
                         (boundTo (printerWith [ifaceBoth])))) = Some i
       /\ direction o = "out" /\ direction i = "in"
       /\ timeout o = 15000%Z /\ timeout i = 700%Z.
Proof.
  assert (R : reachable (state_of (perform
                (CIfaceReady "linux" None ifaceBoth 0)
                (boundTo (printerWith [ifaceBoth])))))
    by (apply reach_call, reach_new).
  split; [exact R|].
  exact (proj1 (open_flag_matches_pair _ R) eq_refl).
Defined.

(** ** A closed session and the transport *)

Lemma nativeCalls_app t1 t2 :
  nativeCalls (t1 ++ t2) = nativeCalls t1 ++ nativeCalls t2.
Proof. unfold nativeCalls, actions. rewrite map_app, flat_map_app. reflexivity. Qed.

Lemma closed_call_is_local c s :
  startsNativeWork c = false ->
  _isClosing s = false -> _isOpen s = false -> noPair s ->
  nativeCalls (trace_of (perform c s)) = []
  /\ _isOpen (state_of (perform c s)) = false.
Proof.
  intros W C O [No Ni]. destruct c; try discriminate; simpl.
  - unfold write. run. rewrite No.
    destruct (_isResetting s || _isClosing s); destruct callback;
      split; try reflexivity; exact O.
  - unfold writeDone. run. destruct err, callback;
      split; try reflexivity; exact O.
  - unfold read. run. rewrite Ni.
    destruct (_isResetting s || _isClosing s); destruct callback;
      split; try reflexivity; exact O.
  - unfold readDone. run. destruct err, callback;
      split; try reflexivity; exact O.
  - unfold resetDone. run. destruct callback; split; reflexivity.
  - unfold close. run. rewrite C, O, orb_true_r.
    destruct callback; split; reflexivity.
  - unfold _onDetach. run.
    destruct (isBound d s); split; try reflexivity; exact O.
  - unfold _onAttach. run.
    destruct (device s) as [d0|];
      [|destruct (findPrinter env) as [|d0 l]];
      destruct (isBound d _); split; try reflexivity; exact O.
Qed.

(** X2. On a closed session nothing but [open], its completions and
    [reset] operates on a device, an interface or an endpoint: whatever
    sequence of writes, reads, their completions, reset completions, closes
    and hot-plug events runs, no device is opened, closed or reset, no
    interface set up or claimed and no transfer submitted, and the session
    stays closed without a pair.  The [usb] module is still consulted by
    the attach handler, whose locator lists the devices
    ([usb.getDeviceList()]); that lookup is no such operation, and it is
    made only while no device is bound: on a bound session the handler does
    the same whatever the module lists. *)
Theorem closed_session_makes_no_native_call (s : USB) (cs : list Call) :
  reachable s -> _isOpen s = false ->
  Forall (fun c => startsNativeWork c = false) cs ->
  nativeCalls (trace_of (performAll cs s)) = []
  /\ _isOpen (state_of (performAll cs s)) = false
  /\ endpoint (state_of (performAll cs s)) = None
  /\ deviceToPcEndpoint (state_of (performAll cs s)) = None
  /\ (forall env env' d x, device x <> None ->
        _onAttach env d x = _onAttach env' d x).
Proof.
  intros R O F.
  assert (A : forall env env' d x, device x <> None ->
                _onAttach env d x = _onAttach env' d x).
  { intros env env' d x B. unfold _onAttach. run.
    destruct (device x); [reflexivity|congruence]. }
  cut (nativeCalls (trace_of (performAll cs s)) = []
       /\ _isOpen (state_of (performAll cs s)) = false
       /\ endpoint (state_of (performAll cs s)) = None
       /\ deviceToPcEndpoint (state_of (performAll cs s)) = None).
  { intros [H1 [H2 [H3 H4]]]. auto. }
  clear A. revert s R O.
  induction F as [|c cs Hc F IH]; intros s R O.
  - pose proof (reachable_closed_noPair s R O) as [No Ni].
    simpl. auto.
  - pose proof (reachable_Inv s R) as [C _].
    pose proof (reachable_closed_noPair s R O) as N.
    destruct (closed_call_is_local c s Hc C O N) as [Hn Ho].
    specialize (IH _ (reach_call s c R) Ho).
    simpl. unfold bind, state_of, trace_of in *.
    destruct (perform c s) as [[u s1] t1]. cbn [fst snd] in *.
    destruct (performAll cs s1) as [[u2 s2] t2]. cbn [fst snd] in *.
    rewrite nativeCalls_app, Hn. exact IH.
Qed.

Lemma closed_session_makes_no_native_call_witness :
  reachable unbound /\ _isOpen unbound = false
  /\ Forall (fun c => startsNativeWork c = false)
            [CWrite [] (Some 0); CRead (Some 1); CClose (Some 2)]
  /\ nativeCalls (trace_of (performAll
       [CWrite [] (Some 0); CRead (Some 1); CClose (Some 2)] unbound)) = [].
Proof.
  assert (R : reachable unbound) by apply reach_new.
  assert (F : Forall (fun c => startsNativeWork c = false)
                [CWrite [] (Some 0); CRead (Some 1); CClose (Some 2)])
    by (repeat constructor).
  split; [exact R|]. split; [reflexivity|]. split; [exact F|].
  exact (proj1 (closed_session_makes_no_native_call unbound _ R eq_refl F)).
Defined.

(** ** The closing flag *)

Lemma open_snapshots cb s :
  Forall (fun ev => snd ev = s) (trace_of (open cb s)).
Proof.
  assert (G : forall l,
    Forall (fun ev => snd ev = s)
           (trace_of (forEach_setAltSetting cb l s))
    /\ state_of (forEach_setAltSetting cb l s) = s).
  { induction l as [|x l [IH1 IH2]]; [split; [constructor|reflexivity]|].
    simpl. run. destruct (setAltSetting_throws x).
    - destruct cb; split; try reflexivity; repeat constructor.
    - unfold state_of, trace_of in *.
      destruct (forEach_setAltSetting cb l s) as [[p s1] t1].
      cbn [fst snd] in *. subst s1. split; [|reflexivity].
      constructor; [reflexivity|]. rewrite app_nil_r. exact IH1. }
  unfold open. run.
  destruct (_isResetting s); [destruct cb; repeat constructor|].
  destruct (device s) as [d|]; [|destruct cb; repeat constructor].
  destruct (_isOpen s); [destruct cb; repeat constructor|].
  destruct (open_throws d); [destruct cb; repeat constructor|].
  destruct (interfaces d) as [ifs|]; [|destruct cb; repeat constructor].
  destruct (G ifs) as [G1 _]. unfold trace_of in G1.
  destruct (forEach_setAltSetting cb ifs s) as [[p s1] t1].
  cbn [fst snd] in *. constructor; [reflexivity|exact G1].
Qed.

Lemma ifaceReady_snapshots pf cb iface c s :
  Forall (fun ev => snd ev = s \/ exists o i, snd ev = withPair o i s)
         (trace_of (ifaceReady pf cb iface c s)).
Proof.
  destruct (claimInterface_spec pf iface s) as [t [E [_ Hs]]].
  assert (Hs' : Forall (fun ev : Event =>
            snd ev = s \/ exists o i, snd ev = withPair o i s) t)
    by (eapply Forall_impl; [|exact Hs]; simpl; auto).
  unfold ifaceReady, bind. rewrite E.
  destruct (setupError pf iface) as [e|].
  - destruct cb; simpl; apply Forall_app; (split; [exact Hs'|]);
      repeat (apply Forall_cons; [left; reflexivity|]); apply Forall_nil.
  - destruct (scanEndpoints (endpoints iface)) as [oe ie] eqn:Sc.
    unfold get at 1.
    destruct (negb (isNone oe) && negb (isNone ie) && isNone (endpoint s) &&
              isNone (deviceToPcEndpoint s)) eqn:Cond.
    + destruct oe as [o|]; [|discriminate].
      destruct ie as [i|]; [|discriminate].
      run. destruct cb; simpl; apply Forall_app; (split; [exact Hs'|]);
        repeat (apply Forall_cons; [right; exists o, i; reflexivity|]);
        apply Forall_nil.
    + run. destruct (device s) as [d|];
        [destruct (interfaces d) as [ifs|];
         [destruct (Nat.eqb (S c) (length ifs) && isNone (endpoint s))|]|];
        destruct cb; simpl; apply Forall_app; (split; [exact Hs'|]);
        repeat (apply Forall_cons; [left; reflexivity|]); apply Forall_nil.
Qed.

(** X3. Between calls the closing flag is never set, and no callback and
    no listener is ever invoked while it is set: [close] has cleared it
    before it invokes either.  So the closing half of the Busy guards never
    answers: a write or a read is answered Busy exactly when a reset is
    pending. *)
Theorem closing_flag_never_observed (s : USB) (c : Call) :
  reachable s ->
  _isClosing s = false
  /\ Forall (fun ev => match fst ev with
                       | Native _ => True
                       | _ => _isClosing (snd ev) = false
                       end) (trace_of (perform c s))
  /\ (forall data k,
        write data (Some k) s =
          (false, s, [(Callback k (Some ErrBusy) VNone, s)])
        <-> _isResetting s = true)
  /\ (forall k,
        read (Some k) s = (false, s, [(Callback k (Some ErrBusy) VNone, s)])
        <-> _isResetting s = true).
Proof.
  intro R. pose proof (reachable_Inv s R) as [C _].
  split; [exact C|]. split; [|split].
  - destruct c; simpl.
    + unfold bind, trace_of. pose proof (open_snapshots callback s) as H.
      unfold trace_of in H. destruct (open callback s) as [[p s1] t1].
      simpl in *. rewrite app_nil_r.
      eapply Forall_impl; [|exact H]. intros [a x] E. simpl in *. subst x.
      destruct a; auto.
    + unfold bind, trace_of.
      pose proof (ifaceReady_snapshots platform0 callback iface counter s)
        as H.
      unfold trace_of in H.
      destruct (ifaceReady platform0 callback iface counter s)
        as [[p s1] t1].
      simpl in *. rewrite app_nil_r.
      eapply Forall_impl; [|exact H]. intros [a x] E. simpl in *.
      destruct a; auto; destruct E as [E|[o [i E]]]; subst x; auto.
    + unfold write. run.
      destruct (_isResetting s || _isClosing s);
        [destruct callback; repeat constructor; exact C|].
      destruct (endpoint s) as [ep|];
        [|destruct callback; repeat constructor; exact C].
      destruct (transfer_throws ep); destruct callback;
        repeat constructor; exact C.
    + unfold writeDone. run.
      destruct err, callback; repeat constructor; exact C.
    + unfold read. run.
      destruct (_isResetting s || _isClosing s);
        [destruct callback; repeat constructor; exact C|].
      destruct (deviceToPcEndpoint s) as [ep|];
        [|destruct callback; repeat constructor; exact C].
      destruct (_readInFlight s);
        [destruct callback; repeat constructor; exact C|].
      destruct (transfer_throws ep); destruct callback;
        repeat constructor; exact C.
    + unfold readDone. run.
      destruct err, callback; repeat constructor; exact C.
    + unfold reset. run.
      destruct (device s) as [d|];
        [|destruct callback; repeat constructor; exact C].
      destruct (_isResetting s);
        [destruct callback; repeat constructor; exact C|].
      destruct (reset_throws d); destruct callback;
        repeat constructor; exact C.
    + unfold resetDone. run.
      destruct callback; repeat constructor; exact C.
    + unfold close. run. rewrite C.
      destruct (isNone (device s) || negb (_isOpen s));
        [|destruct (device s)]; destruct callback; repeat constructor.
    + unfold _onDetach. run.
      destruct (isBound d s); repeat constructor; exact C.
    + unfold _onAttach. run.
      destruct (device s) as [d0|];
        [|destruct (findPrinter env) as [|d0 l]];
        destruct (isBound d _); repeat constructor; exact C.
  - intros data k. unfold write. run. rewrite C, orb_false_r.
    destruct (_isResetting s); [split; reflexivity|].
    destruct (endpoint s) as [ep|];
      [destruct (transfer_throws ep)|];
      (split; intro H; [cbv in H|]; discriminate).
  - intro k. unfold read. run. rewrite C, orb_false_r.
    destruct (_isResetting s); [split; reflexivity|].
    destruct (deviceToPcEndpoint s) as [ep|];
      [destruct (_readInFlight s); [|destruct (transfer_throws ep)]|];
      (split; intro H; [cbv in H|]; discriminate).
Qed.

Lemma closing_flag_never_observed_witness :
  reachable (boundTo (printerWith [ifaceBoth]))
  /\ _isClosing (boundTo (printerWith [ifaceBoth])) = false.
Proof.
  assert (R : reachable (boundTo (printerWith [ifaceBoth])))
    by apply reach_new.
  split; [exact R|].
  exact (proj1 (closing_flag_never_observed _ (CClose None) R)).
Defined.

(** ** close, twice *)

(** X4. Two closes in a row call the transport's close at most once and
    emit [close] at most once; both callbacks are told success, and the
    second close changes nothing. *)
Theorem close_twice_closes_once (s : USB) (cb1 cb2 : CallbackFn) :
  reachable s ->
  let r1 := close (Some cb1) s in
  let r2 := close (Some cb2) (state_of r1) in
  state_of r2 = state_of r1
  /\ trace_of r2 = [(Callback cb2 None VNone, state_of r1)]
  /\ length (nativeCalls (trace_of r1 ++ trace_of r2)) <= 1
  /\ length (emitted "close" (trace_of r1 ++ trace_of r2)) <= 1
  /\ callbacks (trace_of r1 ++ trace_of r2) = [(None, VNone); (None, VNone)].
Proof.
  intro R. pose proof (reachable_Inv s R) as [C _].
  destruct s as [dv eo ei o c rs f]. cbn [_isClosing] in C. subst c.
  unfold close. run. fields.
  destruct dv as [d|]; destruct o; cbn [isNone negb orb]; fields;
    repeat split; simpl; lia.
Qed.

Lemma close_twice_closes_once_witness :
  reachable (state_of (perform (CIfaceReady "linux" None ifaceBoth 0)
                         (boundTo (printerWith [ifaceBoth]))))
  /\ length (nativeCalls
       (trace_of (close (Some 1)
          (state_of (perform (CIfaceReady "linux" None ifaceBoth 0)
                       (boundTo (printerWith [ifaceBoth])))))
        ++ trace_of (close (Some 2) (state_of (close (Some 1)
          (state_of (perform (CIfaceReady "linux" None ifaceBoth 0)
                       (boundTo (printerWith [ifaceBoth]))))))))) <= 1.
Proof.
  assert (R : reachable (state_of (perform
                (CIfaceReady "linux" None ifaceBoth 0)
                (boundTo (printerWith [ifaceBoth])))))
    by (apply reach_call, reach_new).
  split; [exact R|].
  exact (proj1 (proj2 (proj2 (close_twice_closes_once _ 1 2 R)))).
Defined.

(** ** reset: guards and what a pending reset blocks *)

Lemma resetting_persists c s :
  (forall k err, c <> CResetDone k err) -> _isResetting s = true ->
  _isResetting (state_of (perform c s)) = true.
Proof.
  intros N R.
  destruct c as [cb|pf cb iface n|data cb|cb err|cb|cb err data|cb|cb err
                |cb|d|env d]; simpl.
  - unfold open, bind. run. rewrite R. destruct cb; exact R.
  - unfold bind.
    pose proof (ifaceReady_state pf cb iface n s) as H.
    unfold state_of in *.
    destruct (ifaceReady pf cb iface n s) as [[n1 s1] t1].
    cbn [fst snd ret] in *.
    destruct H as [H|[o [i [_ [_ H]]]]]; subst s1; exact R.
  - unfold write. run. rewrite R. destruct cb; exact R.
  - unfold writeDone. run. destruct err, cb; exact R.
  - unfold read. run. rewrite R. destruct cb; exact R.
  - unfold readDone. run. destruct err, cb; exact R.
  - unfold reset. run. rewrite R.
    destruct (device s), cb; exact R.
  - exfalso. exact (N cb err eq_refl).
  - unfold close. run.
    destruct (_isClosing s);
      [|destruct (isNone (device s) || negb (_isOpen s));
        [|destruct (device s)]];
      destruct cb; exact R.
  - unfold _onDetach. run. destruct (isBound d s); exact R.
  - unfold _onAttach. run.
    destruct (device s) as [d0|];
      [|destruct (findPrinter env) as [|d0 l]];
      destruct (isBound d _); exact R.
Qed.

Lemma resetting_persists_all cs :
  forall s,
  (forall k err, ~ In (CResetDone k err) cs) -> _isResetting s = true ->
  _isResetting (state_of (performAll cs s)) = true.
Proof.
  induction cs as [|c cs IH]; intros s N R; [exact R|].
  assert (R1 : _isResetting (state_of (perform c s)) = true).
  { apply resetting_persists; [|exact R].
    intros k err E. apply (N k err). left. exact E. }
  assert (N1 : forall k err, ~ In (CResetDone k err) cs).
  { intros k err I. apply (N k err). right. exact I. }
  specialize (IH _ N1 R1).
  simpl. unfold bind, state_of in *.
  destruct (perform c s) as [[u s1] t1]. cbn [fst snd] in *.
  destruct (performAll cs s1) as [[u2 s2] t2]. exact IH.
Qed.

(** X5. [reset] without a device reports an error and does nothing.  An
    accepted [reset] sets the resetting flag and calls the transport once,
    without invoking the callback yet.  From then until the completion
    runs, whatever else is called or happens in between (further calls,
    other completions, hot-plug events), the flag stays set, and while it
    is set [write] and [read] are answered Busy, [open] is answered with
    the resetting error, and a further [reset] succeeds at once if a device
    is still bound and reports the missing device if it has been detached
    meanwhile; none of the four changes the session or submits anything.
    The completion clears the flag.  When the transport's reset throws, the
    error goes to the callback and the two flags are cleared again. *)
Theorem reset_blocks_until_completion (s : USB) (cb : CallbackFn) :
  (device s = None ->
     reset (Some cb) s =
       (false, s, [(Callback cb (Some ErrNoDeviceToReset) VNone, s)]))
  /\ (forall d, device s = Some d -> _isResetting s = false ->
      reset_throws d = None ->
      let s1 := set_isResetting true s in
      reset (Some cb) s = (true, s1, [(Native (NDeviceReset (ref d)), s1)])
      /\ _isResetting s1 = true)
  /\ (forall s1, _isResetting s1 = true ->
      (forall data k,
         write data (Some k) s1 =
           (false, s1, [(Callback k (Some ErrBusy) VNone, s1)]))
      /\ (forall k,
            read (Some k) s1 =
              (false, s1, [(Callback k (Some ErrBusy) VNone, s1)]))
      /\ (forall k,
            open (Some k) s1 =
              ([], s1, [(Callback k (Some ErrResetting) VNone, s1)]))
      /\ (forall k,
            reset (Some k) s1 =
              (false, s1,
               [(Callback k
                   (if isNone (device s1) then Some ErrNoDeviceToReset
                    else None) VNone, s1)]))
      /\ (forall cs, (forall k err, ~ In (CResetDone k err) cs) ->
            _isResetting (state_of (performAll cs s1)) = true)
      /\ (forall k err,
            _isResetting (state_of (resetDone (Some k) err s1)) = false))
  /\ (forall d e, device s = Some d -> _isResetting s = false ->
      reset_throws d = Some e ->
      reset (Some cb) s =
        (false, set_readInFlight false s,
         [(Native (NDeviceReset (ref d)), set_isResetting true s);
          (Callback cb (Some e) VNone, set_readInFlight false s)])).
Proof.
  split; [|split; [|split]].
  - destruct s as [dv eo ei o c rs f]. cbn [device]. intros ->. reflexivity.
  - destruct s as [dv eo ei o c rs f]. cbn [device _isResetting].
    intros d Hd Hr T. inversion Hd. subst. cbv zeta.
    unfold reset. run. fields. rewrite T. split; reflexivity.
  - intros s1 R.
    split; [|split; [|split; [|split; [|split]]]].
    + intros data k. unfold write. run. rewrite R. reflexivity.
    + intros k. unfold read. run. rewrite R. reflexivity.
    + intros k. unfold open. run. rewrite R. reflexivity.
    + intros k. unfold reset. run. rewrite R.
      destruct (device s1); reflexivity.
    + intros cs N. apply resetting_persists_all; assumption.
    + intros k err. reflexivity.
  - destruct s as [dv eo ei o c rs f]. cbn [device _isResetting].
    intros d e Hd Hr T. inversion Hd. subst.
    unfold reset. run. fields. rewrite T. reflexivity.
Qed.

(** ** Hot-plug: attach, and unplugging then plugging back *)

(** X6. An attach event never opens the session and never touches the
    endpoints or the flags, makes no native call and invokes no callback.
    With no device bound it binds the first printer the locator finds, if
    any; a bound device is kept.  [attach] is emitted, once, exactly when
    the event's device is the device bound afterwards. *)
Theorem attach_rebinds_but_never_opens (env : Env) (d : Device) (s : USB) :
  let r := _onAttach env d s in
  endpoint (state_of r) = endpoint s
  /\ deviceToPcEndpoint (state_of r) = deviceToPcEndpoint s
  /\ _isOpen (state_of r) = _isOpen s
  /\ _isClosing (state_of r) = _isClosing s
  /\ _isResetting (state_of r) = _isResetting s
  /\ _readInFlight (state_of r) = _readInFlight s
  /\ device (state_of r) =
       match device s with
       | Some bound => Some bound
       | None => hd_error (findPrinter env)
       end
  /\ trace_of r =
       if isBound d (state_of r)
       then [(Emit "attach" (PDevice (Some d)), state_of r)] else [].
Proof.
  destruct s as [dv eo ei o c rs f]. unfold _onAttach, isBound. run.
  destruct dv as [b|].
  - simpl. destruct (DevRef_eqb (ref d) (ref b)) eqn:E; repeat split;
      cbn; rewrite E; reflexivity.
  - destruct (findPrinter env) as [|d0 l]; simpl.
    + repeat split.
    + destruct (DevRef_eqb (ref d) (ref d0)) eqn:E; repeat split;
        cbn; rewrite E; reflexivity.
Qed.

(** X7. After the bound device is unplugged, [open] reports that no device
    is bound (unless a reset is pending) and [reset] that there is nothing
    to reset, without a native call.  When it is plugged back and is the
    first printer the locator finds, it is bound again and [attach] is
    emitted, but the session stays closed; when the locator finds no
    printer the session stays unbound and silent. *)
Theorem unplug_then_replug (env : Env) (d : Device) (s : USB)
    (k : CallbackFn) :
  isBound d s = true ->
  let s1 := state_of (_onDetach d s) in
  device s1 = None /\ _isOpen s1 = false
  /\ (_isResetting s = false ->
      open (Some k) s1 = ([], s1, [(Callback k (Some ErrNoDevice) VNone, s1)]))
  /\ reset (Some k) s1 =
       (false, s1, [(Callback k (Some ErrNoDeviceToReset) VNone, s1)])
  /\ (forall d', hd_error (findPrinter env) = Some d' -> ref d' = ref d ->
      let s2 := state_of (_onAttach env d s1) in
      device s2 = Some d' /\ _isOpen s2 = false
      /\ endpoint s2 = None /\ deviceToPcEndpoint s2 = None
      /\ actions (trace_of (_onAttach env d s1))
         = [Emit "attach" (PDevice (Some d))])
  /\ (findPrinter env = [] -> _onAttach env d s1 = (tt, s1, [])).
Proof.
  intro B. destruct s as [dv eo ei o c rs f].
  unfold _onDetach. run. rewrite B. fields. cbv zeta.
  split; [reflexivity|]. split; [reflexivity|]. split; [|split; [|split]].
  - cbn [_isResetting]. intros ->. reflexivity.
  - reflexivity.
  - intros d' H E. unfold _onAttach. run. fields.
    destruct (findPrinter env) as [|d0 l]; [discriminate|].
    inversion H. subst d0. unfold isBound. fields.
    rewrite E. assert (X : DevRef_eqb (ref d) (ref d) = true)
      by (apply DevRef_eqb_eq; reflexivity).
    rewrite X. repeat split.
  - intros E. unfold _onAttach. run. fields. rewrite E. reflexivity.
Qed.

Lemma unplug_then_replug_witness :
  isBound (printerWith [ifaceBoth]) (boundTo (printerWith [ifaceBoth])) = true
  /\ device (state_of (_onDetach (printerWith [ifaceBoth])
                         (boundTo (printerWith [ifaceBoth])))) = None.
Proof.
  split; [reflexivity|].
  exact (proj1 (unplug_then_replug (linux []) (printerWith [ifaceBoth])
                  (boundTo (printerWith [ifaceBoth])) 0 eq_refl)).
Defined.

(** ** The constructor's choice of device *)

Lemma hd_error_filter_Some {A} (f : A -> bool) (l : list A) (x : A) :
  hd_error (filter f l) = Some x <->
  exists pre post, l = pre ++ x :: post /\ f x = true
                   /\ Forall (fun y => f y = false) pre.
Proof.
  induction l as [|a l IH]; simpl.
  - split; [discriminate|]. intros [pre [post [E _]]].
    destruct pre; discriminate.
  - destruct (f a) eqn:Fa; simpl.
    + split.
      * intro H. inversion H. subst. exists [], l. auto.
      * intros [pre [post [E [Fx Fp]]]]. destruct pre as [|b pre].
        -- inversion E. reflexivity.
        -- inversion E. subst. inversion Fp. congruence.
    + rewrite IH. split.
      * intros [pre [post [E [Fx Fp]]]]. exists (a :: pre), post.
        subst. auto.
      * intros [pre [post [E [Fx Fp]]]]. destruct pre as [|b pre].
        -- inversion E. subst. congruence.
        -- inversion E. subst. inversion Fp. exists pre, post. auto.
Qed.

Lemma hd_error_filter_None {A} (f : A -> bool) (l : list A) :
  hd_error (filter f l) = None <-> Forall (fun y => f y = false) l.
Proof.
  induction l as [|a l IH]; simpl.
  - split; auto.
  - destruct (f a) eqn:Fa; simpl.
    + split; [discriminate|]. intro H. inversion H. congruence.
    + rewrite IH. split; [auto|]. intro H. inversion H. assumption.
Qed.

(** X8. A new session is closed, holds no endpoint and has every flag
    clear.  Constructed without arguments it is bound to the first device
    of the transport's list that the locator accepts, and to none exactly
    when the list has no such device; with two non-zero identifiers it is
    bound to what [findByIds] returns; with a device handle it is bound to
    that handle whatever the transport lists; a lone non-zero number is
    stored as if it were a device. *)
Theorem constructor_binding (env : Env) :
  (forall vid pid,
     let s := new_USB env vid pid in
     endpoint s = None /\ deviceToPcEndpoint s = None /\ _isOpen s = false
     /\ _isClosing s = false /\ _isResetting s = false
     /\ _readInFlight s = false)
  /\ (forall d,
        device (new_USB env AUndefined AUndefined) = Some d <->
        exists pre post,
          getDeviceList env = pre ++ d :: post /\ qualifies d = true
          /\ Forall (fun x => qualifies x = false) pre)
  /\ (device (new_USB env AUndefined AUndefined) = None <->
      Forall (fun x => qualifies x = false) (getDeviceList env))
  /\ (forall v p, v <> 0%Z -> p <> 0%Z ->
        device (new_USB env (ANumber v) (ANumber p)) = findByIds env v p)
  /\ (forall d pid, truthyArg pid = false ->
        device (new_USB env (ADevice d) pid) = Some d)
  /\ (forall v pid, v <> 0%Z -> truthyArg pid = false ->
        device (new_USB env (ANumber v) pid) = Some (numberAsDevice v)).
Proof.
  assert (E : findPrinter env = filter qualifies (getDeviceList env)).
  { unfold findPrinter. apply filter_ext. exact isPrinterDevice_qualifies. }
  split; [|split; [|split; [|split; [|split]]]].
  - intros vid pid. repeat split.
  - intro d. unfold new_USB. cbn. rewrite E. apply hd_error_filter_Some.
  - unfold new_USB. cbn. rewrite E. apply hd_error_filter_None.
  - intros v p Hv Hp. unfold new_USB. cbn.
    apply Z.eqb_neq in Hv, Hp. rewrite Hv, Hp. reflexivity.
  - intros d pid Hp. unfold new_USB. cbn. rewrite Hp. reflexivity.
  - intros v pid Hv Hp. unfold new_USB. cbn.
    apply Z.eqb_neq in Hv. rewrite Hv, Hp. reflexivity.
Qed.

(** ** Which interface wins, and what a failed open leaves *)

Lemma completions_state_after_pair pf k d ifs s sched c :
  device s = Some d -> interfaces d = Some ifs ->
  isNone (endpoint s) = false ->
  state_of (completions pf (Some k) sched c s) = s.
Proof.
  intros D I P.
  destruct (completions_after_pair pf k d ifs s sched c D I P)
    as [c' [t [E _]]].
  rewrite E. reflexivity.
Qed.

Lemma completions_first_usable pf k d ifs s sched iface :
  device s = Some d -> interfaces d = Some ifs -> noPair s ->
  find (usable pf) sched = Some iface ->
  forall c,
  exists o i,
    find (fun ep => String.eqb (direction ep) "out") (endpoints iface)
      = Some o
    /\ find (fun ep => String.eqb (direction ep) "in") (endpoints iface)
      = Some i
    /\ state_of (completions pf (Some k) sched c s) = withPair o i s.
Proof.
  intros D I N. induction sched as [|x l IH]; intros F c; [discriminate|].
  simpl in F. simpl completions. unfold bind at 1.
  destruct (usable pf x) eqn:U.
  - inversion F. subst x. unfold usable in U.
    apply andb_true_iff in U. destruct U as [R B].
    apply negb_true_iff in R.
    apply scanEndpoints_bothDirections in B. destruct B as [o [i Sc]].
    destruct (ifaceReady_stores pf k iface c s o i R Sc N) as [t [E _]].
    rewrite E. rewrite scanEndpoints_find in Sc. inversion Sc as [[Ho Hi]].
    exists o, i. rewrite Ho, Hi. split; [reflexivity|]. split; [reflexivity|].
    pose proof (completions_state_after_pair pf k d ifs (withPair o i s) l c
                  D I eq_refl) as X.
    unfold state_of in *.
    destruct (completions pf (Some k) l c (withPair o i s)) as [[c' s'] t'].
    exact X.
  - destruct (raises pf x) eqn:R.
    + destruct (ifaceReady_raises pf k x c s R) as [e [t [_ [E _]]]].
      rewrite E. destruct (IH F c) as [o [i [Ho [Hi X]]]].
      exists o, i. split; [exact Ho|]. split; [exact Hi|].
      unfold state_of in *.
      destruct (completions pf (Some k) l c s) as [[c' s'] t']. exact X.
    + assert (B : bothDirections x = false).
      { unfold usable in U. rewrite R in U. exact U. }
      destruct (ifaceReady_counts pf k x c s R (or_introl B))
        as [t0 [E _]].
      rewrite E. destruct (IH F (S c)) as [o [i [Ho [Hi X]]]].
      exists o, i. split; [exact Ho|]. split; [exact Hi|].
      unfold state_of in *.
      destruct (completions pf (Some k) l (S c) s) as [[c' s'] t']. exact X.
Qed.



Lemma scheduled_incl l order x : In x (scheduled l order) -> In x l.
Proof.
  unfold scheduled. intro H. apply in_flat_map in H.
  destruct H as [n [_ H]].
  destruct (nth_error l n) as [y|] eqn:E; [|contradiction].
  destruct H as [H|[]]. subst. eapply nth_error_In. exact E.
Qed.

Lemma completions_no_usable_state pf k sched :
  Forall (fun i => usable pf i = false) sched ->
  forall c s, state_of (completions pf (Some k) sched c s) = s.
Proof.
  induction 1 as [|x l U _ IH]; intros c s; [reflexivity|].
  simpl. unfold bind at 1. destruct (raises pf x) eqn:R.
  - destruct (ifaceReady_raises pf k x c s R) as [e [t [_ [E _]]]].
    rewrite E. specialize (IH c s). unfold state_of in *.
    destruct (completions pf (Some k) l c s) as [[c' s'] t']. exact IH.
  - assert (B : bothDirections x = false).
    { unfold usable in U. rewrite R in U. exact U. }
    destruct (ifaceReady_counts pf k x c s R (or_introl B)) as [t0 [E _]].
    rewrite E. specialize (IH (S c) s). unfold state_of in *.
    destruct (completions pf (Some k) l (S c) s) as [[c' s'] t']. exact IH.
Qed.



(** ** Reads in flight *)

Lemma perform_keeps_readInFlight c s :
  writesReadFlag c = false ->
  match c with CRead _ | CReadDone _ _ _ => False | _ => True end ->
  _readInFlight (state_of (perform c s)) = _readInFlight s.
Proof.
  intros W NR. destruct c; try discriminate; try contradiction.
  - rewrite perform_open_state. reflexivity.
  - rewrite perform_ifaceReady_state.
    destruct (ifaceReady_state platform0 callback iface counter s)
      as [H|[o [i [_ [_ H]]]]]; rewrite H; reflexivity.
  - simpl. unfold write. run.
    destruct (_isResetting s || _isClosing s); [destruct callback; reflexivity|].
    destruct (endpoint s) as [ep|]; [|destruct callback; reflexivity].
    destruct (transfer_throws ep); destruct callback; reflexivity.
  - simpl. unfold writeDone. run. destruct err, callback; reflexivity.
  - simpl. unfold _onDetach. run. destruct (isBound d s); reflexivity.
  - simpl. unfold _onAttach. run.
    destruct (device s) as [d0|];
      [|destruct (findPrinter env) as [|d0 l]];
      destruct (isBound d _); reflexivity.
Qed.

Lemma read_flag_step cb s :
  _readInFlight (state_of (read cb s))
  = (result (read cb s) || _readInFlight s)%bool
  /\ (result (read cb s) = true -> _readInFlight s = false).
Proof.
  unfold read. run.
  destruct (_isResetting s || _isClosing s);
    [destruct cb; split; try reflexivity; discriminate|].
  destruct (deviceToPcEndpoint s) as [ep|];
    [|destruct cb; split; try reflexivity; discriminate].
  destruct (_readInFlight s) eqn:F;
    [destruct cb; split; try reflexivity; try discriminate;
     cbn; rewrite F; reflexivity|].
  destruct (transfer_throws ep); destruct cb; split; try reflexivity;
    try discriminate; cbn; rewrite ?F; reflexivity.
Qed.

(** X11. As long as no reset and no close intervenes, at most one IN
    transfer is outstanding, and the in-flight flag is set exactly while
    one is: over any run of reads, read completions, writes, opens and
    hot-plug events in which the transport completes only what was
    submitted, the number of submitted and not yet completed reads is 0 or
    1 and equals 1 exactly when the flag is set. *)
Theorem at_most_one_read_outstanding (cs : list Call) (n : nat) (s : USB) :
  Forall (fun c => writesReadFlag c = false) cs ->
  n <= 1 -> _readInFlight s = Nat.eqb n 1 ->
  forall m, result (trackReads cs n s) = Some m ->
  m <= 1 /\ _readInFlight (state_of (trackReads cs n s)) = Nat.eqb m 1.
Proof.
  intro F. revert n s. induction F as [|c cs Hc F IH]; intros n s Hn Hf m.
  - simpl. intro E. inversion E. subst. auto.
  - assert (Other :
      match c with CRead _ | CReadDone _ _ _ => False | _ => True end ->
      forall k, (perform c ;; trackReads cs k) s
                = let r := perform c s in
                  let r' := trackReads cs k (state_of r) in
                  (result r', state_of r', trace_of r ++ trace_of r')).
    { intros _ k. unfold bind, result, state_of, trace_of.
      destruct (perform c s) as [[u s1] t1]. cbn [fst snd].
      destruct (trackReads cs k s1) as [[u2 s2] t2]. reflexivity. }
    assert (Step : forall s1, _readInFlight s1 = _readInFlight s ->
      result (trackReads cs n s1) = Some m ->
      m <= 1 /\ _readInFlight (state_of (trackReads cs n s1)) = Nat.eqb m 1).
    { intros s1 E1. apply IH; [exact Hn|congruence]. }
    destruct c; try discriminate;
      try (simpl trackReads; rewrite Other by exact I; cbv zeta;
           unfold result, state_of at 1; cbn [fst snd];
           apply Step; apply perform_keeps_readInFlight;
           [exact Hc|exact I]).
    + (* read *)
      simpl trackReads. unfold bind.
      destruct (read_flag_step callback s) as [Hr Hs].
      unfold result, state_of in *.
      destruct (read callback s) as [[b s1] t1]. cbn [fst snd] in *.
      destruct b.
      * specialize (Hs eq_refl). rewrite Hs in Hf.
        assert (n = 0) by (destruct n as [|[|]]; simpl in Hf;
                           try discriminate; [reflexivity|lia]).
        subst n. specialize (IH 1 s1 (le_n 1)).
        destruct (trackReads cs 1 s1) as [[r s2] t2]. cbn [fst snd] in *.
        apply IH. rewrite Hr. reflexivity.
      * specialize (IH n s1 Hn).
        destruct (trackReads cs n s1) as [[r s2] t2]. cbn [fst snd] in *.
        apply IH. rewrite Hr. exact Hf.
    + (* readDone *)
      simpl trackReads. destruct n as [|n']; [discriminate|].
      assert (n' = 0) by lia. subst n'.
      unfold bind, readDone. run.
      set (s1 := set_readInFlight false s).
      specialize (IH 0 s1 (Nat.le_0_l 1) eq_refl m).
      destruct err, callback; cbn [fst snd];
        unfold result, state_of in *;
        destruct (trackReads cs 0 s1) as [[r s2] t2]; cbn [fst snd] in *;
        exact IH.
Qed.

Lemma at_most_one_read_outstanding_witness :
  Forall (fun c => writesReadFlag c = false)
    [CRead (Some 0); CRead (Some 1); CReadDone (Some 0) None None;
     CRead (Some 2)]
  /\ 0 <= 1
  /\ result (trackReads
       [CRead (Some 0); CRead (Some 1); CReadDone (Some 0) None None;
        CRead (Some 2)] 0
       (state_of (perform (CIfaceReady "linux" None ifaceBoth 0)
                    (boundTo (printerWith [ifaceBoth]))))) = Some 1
  /\ 1 <= 1.
Proof.
  assert (F : Forall (fun c => writesReadFlag c = false)
    [CRead (Some 0); CRead (Some 1); CReadDone (Some 0) None None;
     CRead (Some 2)]) by (repeat constructor).
  split; [exact F|]. split; [lia|]. split; [reflexivity|].
  exact (proj1 (at_most_one_read_outstanding _ 0
    (state_of (perform (CIfaceReady "linux" None ifaceBoth 0)
                 (boundTo (printerWith [ifaceBoth]))))
    F (Nat.le_0_l 1) eq_refl 1 eq_refl)).
Defined.

(** ** USB.getDevice: the ways it rejects *)

Lemma scheduled_nil order : scheduled [] order = [].
Proof.
  unfold scheduled. induction order as [|n l IH]; [reflexivity|].
  simpl. destruct n; exact IH.
Qed.

Lemma callbacksOf_app k t1 t2 :
  callbacksOf k (t1 ++ t2) = callbacksOf k t1 ++ callbacksOf k t2.
Proof.
  unfold callbacksOf, actions. rewrite map_app, flat_map_app. reflexivity.
Qed.

Lemma callbacksOf_none k t : callbacks t = [] -> callbacksOf k t = [].
Proof.
  unfold callbacks, callbacksOf, actions.
  induction t as [|[a s] t IH]; [reflexivity|]. simpl.
  destruct a; simpl; try exact IH. discriminate.
Qed.

Lemma ifaceReady_raises_trace pf k iface c s e :
  setupError pf iface = Some e ->
  exists t0, ifaceReady pf (Some k) iface c s
             = (c, s, t0 ++ [(Callback k (Some e) VNone, s)])
             /\ callbacks t0 = [].
Proof.
  intro Se. destruct (claimInterface_spec pf iface s) as [t [E [Hc _]]].
  unfold ifaceReady, bind. rewrite E, Se. exists t. split; [|exact Hc].
  run. rewrite app_nil_r. reflexivity.
Qed.

(** X12. [USB.getDevice] rejects with "No USB printer device found",
    without a native call, when [findByIds] knows no such device or, called
    without identifiers, when the locator finds no printer; it rejects with
    the transport's error when the device-open throws, and with a type
    error when only one identifier is given (the number is taken for a
    device).  When the first interface whose setup completes raises, the
    promise is rejected with that error even if a later interface is usable
    and the session, which nobody then holds, ends up open. *)
Theorem getDevice_rejections (env : Env) :
  let closed := mkUSB None None None false false false false in
  (forall v p order, v <> 0%Z -> p <> 0%Z -> findByIds env v p = None ->
     getDevice env (ANumber v) (ANumber p) order
     = (Rejected ErrNoDevice, closed,
        [(Callback 0 (Some ErrNoDevice) VNone, closed)]))
  /\ (forall order,
        Forall (fun x => qualifies x = false) (getDeviceList env) ->
        getDevice env AUndefined AUndefined order
        = (Rejected ErrNoDevice, closed,
           [(Callback 0 (Some ErrNoDevice) VNone, closed)]))
  /\ (forall v pid order, v <> 0%Z -> truthyArg pid = false ->
        fst (fst (getDevice env (ANumber v) pid order))
        = Rejected (TypeError "this.device.open is not a function")
        /\ _isOpen (snd (fst (getDevice env (ANumber v) pid order))) = false)
  /\ (forall v p d e order, v <> 0%Z -> p <> 0%Z ->
        findByIds env v p = Some d -> open_throws d = Some e ->
        fst (fst (getDevice env (ANumber v) (ANumber p) order)) = Rejected e
        /\ snd (fst (getDevice env (ANumber v) (ANumber p) order))
           = mkUSB (Some d) None None false false false false)
  /\ (forall v p d ifs n0 rest i e, v <> 0%Z -> p <> 0%Z ->
        findByIds env v p = Some d -> open_throws d = None ->
        interfaces d = Some ifs ->
        Forall (fun x => setAltSetting_throws x = None) ifs ->
        nth_error ifs n0 = Some i -> setupError (platform env) i = Some e ->
        fst (fst (getDevice env (ANumber v) (ANumber p) (n0 :: rest)))
        = Rejected e
        /\ (forall iface,
              find (usable (platform env)) (scheduled ifs rest) = Some iface
              -> _isOpen (snd (fst (getDevice env (ANumber v) (ANumber p)
                                      (n0 :: rest)))) = true)).
Proof.
  cbv zeta.
  assert (E : findPrinter env = filter qualifies (getDeviceList env)).
  { unfold findPrinter. apply filter_ext. exact isPrinterDevice_qualifies. }
  assert (Ids : forall v p, v <> 0%Z -> p <> 0%Z ->
            new_USB env (ANumber v) (ANumber p)
            = mkUSB (findByIds env v p) None None false false false false).
  { intros v p Hv Hp. unfold new_USB. cbn.
    apply Z.eqb_neq in Hv, Hp. rewrite Hv, Hp. reflexivity. }
  split; [|split; [|split; [|split]]].
  - intros v p order Hv Hp F. unfold getDevice, openThen, bind.
    rewrite (Ids v p Hv Hp), F. unfold open. run. cbn.
    rewrite scheduled_nil. reflexivity.
  - intros order F. apply hd_error_filter_None in F. rewrite <- E in F.
    unfold getDevice, openThen, bind, new_USB. cbn. rewrite F.
    unfold open. run. cbn. rewrite scheduled_nil. reflexivity.
  - intros v pid order Hv Hp. unfold getDevice, openThen, bind, new_USB.
    cbn. apply Z.eqb_neq in Hv. rewrite Hv, Hp.
    unfold open. run. cbn. rewrite scheduled_nil. split; reflexivity.
  - intros v p d e order Hv Hp F T. unfold getDevice, openThen, bind.
    rewrite (Ids v p Hv Hp), F. unfold open. run. cbn. rewrite T.
    cbn. rewrite scheduled_nil. split; reflexivity.
  - intros v p d ifs n0 rest i e Hv Hp F T I Fa Hn Se.
    unfold getDevice. rewrite (Ids v p Hv Hp), F.
    set (s := mkUSB (Some d) None None false false false false).
    assert (En : enumerates s d ifs) by (repeat split; assumption).
    destruct (open_enumerates (Some 0) s d ifs En) as [t0 [E0 [Hc0 _]]].
    unfold openThen, bind. rewrite E0.
    assert (Sch : scheduled ifs (n0 :: rest) = i :: scheduled ifs rest).
    { unfold scheduled. simpl. rewrite Hn. reflexivity. }
    rewrite Sch. cbn [completions]. unfold bind.
    destruct (ifaceReady_raises_trace (platform env) 0 i 0 s e Se)
      as [t1 [E1 Hc1]].
    match goal with
    | |- context [ifaceReady ?a ?b ?c ?d ?x] =>
        destruct (ifaceReady a b c d x) as [[a1 s1] t2] eqn:Ei
    end.
    pose proof (eq_trans (eq_sym Ei) E1) as X1. inversion X1. subst.
    clear X1.
    match goal with
    | |- context [completions ?a ?b ?c ?d ?x] =>
        destruct (completions a b c d x) as [[c' s'] t'] eqn:Ec
    end.
    unfold trace_of, state_of. cbn [fst snd]. split.
    + rewrite settle_decidedBy.
      rewrite !callbacksOf_app, (callbacksOf_none 0 t0 Hc0),
        (callbacksOf_none 0 t1 Hc1).
      reflexivity.
    + intros iface Fu.
      destruct (completions_first_usable (platform env) 0 d ifs s
                  (scheduled ifs rest) iface eq_refl I
                  (conj eq_refl eq_refl) Fu 0) as [o [i0 [_ [_ X]]]].
      unfold state_of in X.
      pose proof (f_equal (fun r => snd (fst r)) Ec) as Y.
      cbn [fst snd] in Y. cbv beta in X.
      transitivity (_isOpen (withPair o i0 s)); [|reflexivity].
      f_equal. rewrite <- X. symmetry. exact Y.
Qed.

(** ** destroy *)





(** ** The earlier revision: close and open *)

(** X14. In the earlier revision a [close] that passes the guard leaves
    the closing flag set: every later [close] only reports success, with no
    native call and no [close] event, until an interface completion of a
    later [open] finds an OUT endpoint and clears the flag. *)
Theorem legacy_close_is_one_shot (s : USB) (cb : CallbackFn) :
  _isClosing s = false ->
  let s1 := state_of (Legacy.close (Some cb) s) in
  _isClosing s1 = true /\ _isOpen s1 = false
  /\ endpoint s1 = None /\ deviceToPcEndpoint s1 = None
  /\ (forall k, Legacy.close (Some k) s1
                = (tt, s1, [(Callback k None VNone, s1)]))
  /\ (forall pf iface c, raises pf iface = false ->
        existsb (fun ep => String.eqb (direction ep) "out")
                (endpoints iface) = true ->
        _isClosing (state_of (Legacy.ifaceReady pf None iface c s1))
        = false).
Proof.
  destruct s as [dv eo ei o c rs f]. cbn [_isClosing]. intros ->.
  cbv zeta.
  assert (E : exists dv' f',
    state_of (Legacy.close (Some cb) (mkUSB dv eo ei o false rs f))
    = mkUSB dv' None None false true rs f').
  { unfold Legacy.close. run. fields.
    destruct dv as [d|]; destruct o; cbn [isNone negb orb]; fields;
      eexists; eexists; reflexivity. }
  destruct E as [dv' [f' E]]. rewrite E.
  repeat split.
  intros pf iface c0 R Ex.
  assert (G : forall eps s0, endpoint s0 = None ->
    existsb (fun ep => String.eqb (direction ep) "out") eps = true ->
    exists s', Legacy.forEach_endpoint eps s0 = (tt, s', [])
               /\ endpoint s' <> None
               /\ _isClosing s' = _isClosing s0).
  { induction eps as [|ep eps IH]; intros s0 N X; [discriminate|].
    simpl in X. simpl Legacy.forEach_endpoint. run. rewrite N.
    destruct (String.eqb (direction ep) "out") eqn:D; cbn [andb isNone].
    - assert (K : forall s2, endpoint s2 <> None ->
        exists s', Legacy.forEach_endpoint eps s2 = (tt, s', [])
                   /\ endpoint s' <> None
                   /\ _isClosing s' = _isClosing s2).
      { clear. induction eps as [|ep eps IH]; intros s2 N.
        - exists s2. repeat split. exact N.
        - simpl. run. destruct (endpoint s2) eqn:Ee; [|congruence].
          rewrite andb_false_r.
          destruct (String.eqb (direction ep) "in" &&
                    isNone (deviceToPcEndpoint s2)).
          + destruct (IH (set_deviceToPcEndpoint (Some ep) s2))
              as [s' [E [N' C']]]; [fields; rewrite Ee; discriminate|].
            rewrite E. exists s'. repeat split; assumption.
          + destruct (IH s2) as [s' [E [N' C']]];
              [rewrite Ee; discriminate|].
            rewrite E. exists s'. repeat split; assumption. }
      destruct (String.eqb (direction ep) "in" &&
                isNone (deviceToPcEndpoint (set_endpoint (Some ep) s0))).
      + destruct (K (set_deviceToPcEndpoint (Some ep)
                       (set_endpoint (Some ep) s0)))
          as [s' [E' [N' C']]]; [fields; discriminate|].
        rewrite E'. exists s'. repeat split; assumption.
      + destruct (K (set_endpoint (Some ep) s0)) as [s' [E' [N' C']]];
          [fields; discriminate|].
        rewrite E'. exists s'. repeat split; assumption.
    - simpl in X.
      destruct (String.eqb (direction ep) "in" &&
                isNone (deviceToPcEndpoint s0)).
      + destruct (IH (set_deviceToPcEndpoint (Some ep) s0))
          as [s' [E' [N' C']]]; [exact N|exact X|].
        rewrite E'. exists s'. repeat split; assumption.
      + destruct (IH s0 N X) as [s' [E' [N' C']]].
        rewrite E'. exists s'. repeat split; assumption. }
  destruct (claimInterface_spec pf iface
              (mkUSB dv' None None false true rs f')) as [t [Ec _]].
  rewrite raises_setupError in R.
  unfold Legacy.ifaceReady, bind. rewrite Ec.
  destruct (setupError pf iface); [discriminate|].
  destruct (G (endpoints iface) (mkUSB dv' None None false true rs f')
              eq_refl Ex) as [s' [E' [N' _]]].
  rewrite E'. run. destruct (endpoint s'); [|congruence]. reflexivity.
Qed.

Lemma legacy_close_is_one_shot_witness :
  _isClosing unbound = false
  /\ _isClosing (state_of (Legacy.close (Some 0) unbound)) = true.
Proof.
  split; [reflexivity|].
  exact (proj1 (legacy_close_is_one_shot unbound 0 eq_refl)).
Defined.

Lemma legacy_forEach_endpoint eps s :
  Legacy.forEach_endpoint eps s =
    (tt,
     mkUSB (device s)
       (match endpoint s with
        | Some x => Some x
        | None => find (fun ep => String.eqb (direction ep) "out") eps
        end)
       (match deviceToPcEndpoint s with
        | Some x => Some x
        | None => find (fun ep => String.eqb (direction ep) "in") eps
        end)
       (_isOpen s) (_isClosing s) (_isResetting s) (_readInFlight s),
     []).
Proof.
  revert s. induction eps as [|ep eps IH]; intro s.
  - destruct s as [dv [o|] [i|] op c rs f]; reflexivity.
  - simpl Legacy.forEach_endpoint. run.
    destruct s as [dv [o|] [i|] op c rs f]; fields; cbn [isNone find];
      destruct (String.eqb (direction ep) "out");
      destruct (String.eqb (direction ep) "in");
      cbn [andb]; fields; cbn [isNone];
      rewrite IH; reflexivity.
Qed.

(** X15. The earlier revision fills the OUT and the IN endpoint of the
    session independently, each from the first interface that offers it:
    once an OUT endpoint is known, from this interface or an earlier one,
    the completion of any interface that does not raise opens the session
    and reports success, whether or not an IN endpoint is known and from
    whichever interface it came, and sets no timeout.  While no OUT
    endpoint is known the session stays closed but keeps the IN endpoint it
    has met. *)
Theorem legacy_open_fills_endpoints_independently (pf : string)
    (k : CallbackFn) (iface : Interface) (c : nat) (s : USB) :
  raises pf iface = false ->
  let out := match endpoint s with
             | Some x => Some x
             | None => find (fun ep => String.eqb (direction ep) "out")
                            (endpoints iface)
             end in
  let inp := match deviceToPcEndpoint s with
             | Some x => Some x
             | None => find (fun ep => String.eqb (direction ep) "in")
                            (endpoints iface)
             end in
  let r := Legacy.ifaceReady pf (Some k) iface c s in
  endpoint (state_of r) = out /\ deviceToPcEndpoint (state_of r) = inp
  /\ (out <> None ->
      _isOpen (state_of r) = true /\ result r = c
      /\ callbacks (trace_of r) = [(None, VSelf)])
  /\ (out = None ->
      _isOpen (state_of r) = _isOpen s /\ result r = S c
      /\ successes (trace_of r) = []).
Proof.
  intro R. cbv zeta. rewrite raises_setupError in R.
  destruct (claimInterface_spec pf iface s) as [t [Ec [Hc _]]].
  unfold Legacy.ifaceReady, bind. rewrite Ec.
  destruct (setupError pf iface); [discriminate|].
  rewrite legacy_forEach_endpoint. unfold get at 1.
  cbn [endpoint].
  destruct (match endpoint s with
            | Some x => Some x
            | None => find (fun ep => String.eqb (direction ep) "out")
                           (endpoints iface)
            end) as [o|] eqn:Eo; cbn [isNone negb].
  - run. fields. cbn [isNone negb]. run. fields. cbn [app].
    split; [reflexivity|]. split; [reflexivity|].
    split; [|intro H; discriminate]. intros _.
    split; [reflexivity|]. split; [reflexivity|].
    rewrite !callbacks_app, Hc. reflexivity.
  - run. fields. cbn [isNone negb].
    destruct (device s) as [d|];
      [destruct (interfaces d) as [ifs|];
       [destruct (Nat.eqb (S c) (length ifs)); cbn [andb]|]|];
      run; fields; cbn [app]; (split; [reflexivity|]); (split; [reflexivity|]);
      (split; [intro H; congruence|]); intros _;
      (split; [reflexivity|]); (split; [reflexivity|]);
      unfold successes; rewrite ?callbacks_app, ?Hc; reflexivity.
Qed.

Lemma legacy_open_fills_endpoints_independently_witness :
  raises "linux" ifaceInOnly = false
  /\ endpoint (state_of (Legacy.ifaceReady "linux" (Some 0) ifaceInOnly 0
       (state_of (Legacy.ifaceReady "linux" (Some 0) ifaceOutOnly 0
          (boundTo (printerWith [ifaceOutOnly; ifaceInOnly]))))))
     = Some (epOut 1).
Proof.
  split; [reflexivity|].
  exact (proj1 (legacy_open_fills_endpoints_independently "linux" 0
    ifaceInOnly 0
    (state_of (Legacy.ifaceReady "linux" (Some 0) ifaceOutOnly 0
       (boundTo (printerWith [ifaceOutOnly; ifaceInOnly]))))
    eq_refl)).
Defined.

(** ** The connect event *)

Lemma emitted_app n t1 t2 : emitted n (t1 ++ t2) = emitted n t1 ++ emitted n t2.
Proof. unfold emitted, actions. rewrite map_app, flat_map_app. reflexivity. Qed.

Lemma claimInterface_emits_nothing pf iface s n :
  emitted n (trace_of (claimInterface pf iface s)) = [].
Proof.
  unfold claimInterface. run.
  destruct (negb (String.eqb "win32" pf)).
  - destruct (isKernelDriverActive iface) as [e|[|]]; reflexivity.
  - reflexivity.
Qed.

Lemma open_emits_nothing cb s n : emitted n (trace_of (open cb s)) = [].
Proof.
  assert (G : forall l,
    emitted n (trace_of (forEach_setAltSetting cb l s)) = []).
  { induction l as [|x l IH]; [reflexivity|]. simpl. run.
    destruct (setAltSetting_throws x); [destruct cb; reflexivity|].
    unfold trace_of in IH.
    destruct (forEach_setAltSetting cb l s) as [[p s1] t1].
    cbn [fst snd] in *. rewrite app_nil_r.
    change (emitted n ((Native (NSetAltSetting (interfaceNumber x)
                                  (altSetting x)), s) :: t1))
      with (emitted n t1). exact IH. }
  unfold open. run.
  destruct (_isResetting s); [destruct cb; reflexivity|].
  destruct (device s) as [d|]; [|destruct cb; reflexivity].
  destruct (_isOpen s); [destruct cb; reflexivity|].
  destruct (open_throws d); [destruct cb; reflexivity|].
  destruct (interfaces d) as [ifs|]; [|destruct cb; reflexivity].
  specialize (G ifs). unfold trace_of in G.
  destruct (forEach_setAltSetting cb ifs s) as [[p s1] t1].
  cbn [fst snd] in *. exact G.
Qed.

Lemma ifaceReady_connect pf cb iface c s :
  emitted "connect" (trace_of (ifaceReady pf cb iface c s))
  = if stores pf iface s then [PDevice (device s)] else [].
Proof.
  pose proof (claimInterface_emits_nothing pf iface s "connect") as Hn.
  destruct (claimInterface_spec pf iface s) as [t [E _]].
  rewrite E in Hn. unfold trace_of in Hn. cbn [snd] in Hn.
  unfold stores, usable. rewrite raises_setupError.
  unfold ifaceReady, bind. rewrite E.
  destruct (setupError pf iface) as [e|]; cbn [isNone negb andb].
  - destruct cb; run; cbn [snd]; rewrite emitted_app, Hn; reflexivity.
  - destruct (scanEndpoints (endpoints iface)) as [oe ie] eqn:Sc.
    assert (B : bothDirections iface = negb (isNone oe) && negb (isNone ie)).
    { destruct (bothDirections iface) eqn:B.
      - apply scanEndpoints_bothDirections in B.
        destruct B as [o [i B]]. rewrite Sc in B. inversion B. reflexivity.
      - destruct oe as [o|]; [|reflexivity].
        destruct ie as [i|]; [|reflexivity].
        assert (bothDirections iface = true)
          by (apply scanEndpoints_bothDirections; eauto).
        congruence. }
    rewrite B. unfold get at 1.
    destruct (negb (isNone oe) && negb (isNone ie) && isNone (endpoint s) &&
              isNone (deviceToPcEndpoint s)).
    + run. destruct cb; cbn [snd]; rewrite emitted_app, Hn; reflexivity.
    + run. destruct (device s) as [d|];
        [destruct (interfaces d) as [ifs|];
         [destruct (Nat.eqb (S c) (length ifs) && isNone (endpoint s))|]|];
        destruct cb; cbn [snd]; rewrite emitted_app, Hn; reflexivity.
Qed.

Lemma completions_connect pf k sched :
  forall c s,
  emitted "connect" (trace_of (completions pf (Some k) sched c s))
  = if existsb (fun i => stores pf i s) sched
    then [PDevice (device s)] else [].
Proof.
  induction sched as [|x l IH]; intros c s; [reflexivity|].
  simpl completions. unfold bind.
  pose proof (ifaceReady_connect pf (Some k) x c s) as Hx.
  pose proof (ifaceReady_state pf (Some k) x c s) as Hst.
  unfold trace_of, state_of in *.
  destruct (ifaceReady pf (Some k) x c s) as [[c1 s1] t1] eqn:Ei.
  cbn [fst snd] in *.
  specialize (IH c1 s1).
  destruct (completions pf (Some k) l c1 s1) as [[c2 s2] t2].
  cbn [fst snd existsb] in *. rewrite emitted_app, Hx, IH.
  destruct Hst as [Hs|[o [i [Sc [N Hs]]]]].
  - subst s1. destruct (stores pf x s) eqn:St; cbn [orb app].
    + exfalso. unfold stores, usable in St.
      apply andb_true_iff in St. destruct St as [St Ni].
      apply andb_true_iff in St. destruct St as [St No].
      apply andb_true_iff in St. destruct St as [R B].
      apply negb_true_iff in R.
      apply scanEndpoints_bothDirections in B. destruct B as [o [i Sc]].
      assert (N : noPair s).
      { unfold noPair. destruct (endpoint s); [discriminate|].
        destruct (deviceToPcEndpoint s); [discriminate|]. auto. }
      destruct (ifaceReady_stores pf k x c s o i R Sc N) as [t [E _]].
      rewrite E in Ei. inversion Ei as [[Hc Hw Ht]].
      pose proof (f_equal _isOpen Hw) as Ho. simpl in Ho.
      destruct N as [No' _].
      pose proof (f_equal endpoint Hw) as He. simpl in He. congruence.
    + reflexivity.
  - subst s1.
    assert (St : stores pf x s = true).
    { destruct (stores pf x s) eqn:St; [reflexivity|].
      exfalso. pose proof Hx as Hx'.
      assert (R : raises pf x = false \/ raises pf x = true)
        by (destruct (raises pf x); auto).
      destruct R as [R|R].
      - assert (B : bothDirections x = true)
          by (apply scanEndpoints_bothDirections; eauto).
        unfold stores, usable in St. rewrite R, B in St.
        destruct N as [No Ni]. rewrite No, Ni in St. discriminate.
      - destruct (ifaceReady_raises pf k x c s R) as [e [t [_ [E _]]]].
        rewrite E in Ei. inversion Ei as [[Hc Hw Ht]].
        destruct N as [No _].
        pose proof (f_equal endpoint Hw) as He. simpl in He. congruence. }
    rewrite St. cbn [orb].
    assert (Z : existsb (fun i0 => stores pf i0 (withPair o i s)) l = false).
    { clear. induction l as [|y l IH]; [reflexivity|]. simpl.
      rewrite IH. unfold stores. simpl. rewrite andb_false_r. reflexivity. }
    rewrite Z. reflexivity.
Qed.

Lemma only_completions_connect c x :
  (forall pf cb iface n, c <> CIfaceReady pf cb iface n) ->
  emitted "connect" (trace_of (perform c x)) = [].
Proof.
  intro N.
  destruct c as [cb|pf cb iface n|data cb|cb err|cb|cb err data|cb|cb err
                |cb|d|env d]; simpl.
  - pose proof (open_emits_nothing cb x "connect") as H.
    unfold bind, trace_of in *.
    destruct (open cb x) as [[p s1] t1]. cbn [fst snd ret] in *.
    rewrite app_nil_r. exact H.
  - exfalso. exact (N pf cb iface n eq_refl).
  - unfold write. run.
    destruct (_isResetting x || _isClosing x); [destruct cb; reflexivity|].
    destruct (endpoint x) as [ep|]; [|destruct cb; reflexivity].
    destruct (transfer_throws ep); destruct cb; reflexivity.
  - unfold writeDone. run. destruct err, cb; reflexivity.
  - unfold read. run.
    destruct (_isResetting x || _isClosing x); [destruct cb; reflexivity|].
    destruct (deviceToPcEndpoint x) as [ep|]; [|destruct cb; reflexivity].
    destruct (_readInFlight x); [destruct cb; reflexivity|].
    destruct (transfer_throws ep); destruct cb; reflexivity.
  - unfold readDone. run. destruct err, cb; reflexivity.
  - unfold reset. run.
    destruct (device x) as [d|]; [|destruct cb; reflexivity].
    destruct (_isResetting x); [destruct cb; reflexivity|].
    destruct (reset_throws d); destruct cb; reflexivity.
  - unfold resetDone. run. destruct cb; reflexivity.
  - unfold close. run.
    destruct (_isClosing x); [destruct cb; reflexivity|].
    destruct (isNone (device x) || negb (_isOpen x));
      [destruct cb; reflexivity|].
    destruct (device x); destruct cb; reflexivity.
  - unfold _onDetach. run. destruct (isBound d x); reflexivity.
  - unfold _onAttach. run.
    destruct (device x) as [d0|];
      [|destruct (findPrinter env) as [|d0 l]];
      destruct (isBound d _); reflexivity.
Qed.

(** X16. The completion of an interface setup emits [connect] exactly when
    it stores a pair, that is when the setup does not raise, the interface
    has both directions and the session holds no endpoint; it then emits it
    once, carrying the device bound at that moment, which is null when the
    device has been detached since [open].  A completion that finds a pair
    already stored, such as that of a second, overlapping [open], emits
    nothing, and no call other than a completion emits [connect].  So when
    the completions of one [open] on a reachable session run with no other
    call in between, [connect] is emitted at most once, carries the bound
    device, and is emitted exactly when one of the completed interfaces is
    usable, which is also exactly when the session ends up open. *)
Theorem connect_emitted_once_on_success (pf : string) (k : CallbackFn)
    (s : USB) (d : Device) (ifs : list Interface) (order : list nat) :
  (forall cb iface c x,
     emitted "connect" (trace_of (ifaceReady pf cb iface c x))
     = if stores pf iface x then [PDevice (device x)] else [])
  /\ (forall c x, (forall pf' cb iface n, c <> CIfaceReady pf' cb iface n) ->
        emitted "connect" (trace_of (perform c x)) = [])
  /\ (reachable s -> enumerates s d ifs ->
      emitted "connect" (trace_of (openThen pf (Some k) order s))
      = (if existsb (usable pf) (scheduled ifs order)
         then [PDevice (Some d)] else [])
      /\ _isOpen (state_of (openThen pf (Some k) order s))
         = existsb (usable pf) (scheduled ifs order)).
Proof.
  split; [intros; apply ifaceReady_connect|].
  split; [intros; apply only_completions_connect; assumption|].
  intros R En.
  assert (O : _isOpen s = false) by apply En.
  pose proof (reachable_closed_noPair s R O) as [No Ni].
  destruct (open_enumerates (Some k) s d ifs En) as [t0 [E0 _]].
  pose proof (open_emits_nothing (Some k) s "connect") as H0.
  rewrite E0 in H0. unfold trace_of in H0. cbn [snd] in H0.
  assert (D : device s = Some d) by apply En.
  assert (I : interfaces d = Some ifs) by apply En.
  assert (X : forall l, existsb (fun i => stores pf i s) l
                        = existsb (usable pf) l).
  { intro l. induction l as [|y l IH]; [reflexivity|]. simpl.
    rewrite IH. unfold stores. rewrite No, Ni. simpl.
    rewrite !andb_true_r. reflexivity. }
  pose proof (completions_connect pf k (scheduled ifs order) 0 s) as Hc.
  rewrite X, D in Hc.
  unfold openThen, bind. rewrite E0. unfold trace_of, state_of in *.
  destruct (existsb (usable pf) (scheduled ifs order)) eqn:U.
  - destruct (find (usable pf) (scheduled ifs order)) as [iface|] eqn:F.
    + destruct (completions_first_usable pf k d ifs s _ iface D I
                  (conj No Ni) F 0) as [o [i [_ [_ Y]]]].
      unfold state_of in Y.
      destruct (completions pf (Some k) (scheduled ifs order) 0 s)
        as [[c' s'] t'].
      cbn [fst snd] in *. subst s'. rewrite emitted_app, H0, Hc.
      split; reflexivity.
    + exfalso. apply existsb_exists in U. destruct U as [x [Ix Ux]].
      apply (find_none _ _ F) in Ix. congruence.
  - assert (Fa : Forall (fun i => usable pf i = false)
                        (scheduled ifs order)).
    { apply Forall_forall. intros x Ix.
      destruct (usable pf x) eqn:Ux; [|reflexivity].
      assert (existsb (usable pf) (scheduled ifs order) = true)
        by (apply existsb_exists; eauto).
      congruence. }
    pose proof (completions_no_usable_state pf k _ Fa 0 s) as Y.
    unfold state_of in Y.
    destruct (completions pf (Some k) (scheduled ifs order) 0 s)
      as [[c' s'] t'].
    cbn [fst snd] in *. subst s'. rewrite emitted_app, H0, Hc.
    split; [reflexivity|exact O].
Qed.

Lemma connect_emitted_once_on_success_witness :
  reachable (boundTo (printerWith [ifaceBoth; ifaceBoth1]))
  /\ enumerates (boundTo (printerWith [ifaceBoth; ifaceBoth1]))
       (printerWith [ifaceBoth; ifaceBoth1]) [ifaceBoth; ifaceBoth1]
  /\ emitted "connect" (trace_of (openThen "linux" (Some 0) [1; 0]
       (boundTo (printerWith [ifaceBoth; ifaceBoth1]))))
     = [PDevice (Some (printerWith [ifaceBoth; ifaceBoth1]))].
Proof.
  assert (R : reachable (boundTo (printerWith [ifaceBoth; ifaceBoth1])))
    by apply reach_new.
  assert (En : enumerates (boundTo (printerWith [ifaceBoth; ifaceBoth1]))
       (printerWith [ifaceBoth; ifaceBoth1]) [ifaceBoth; ifaceBoth1])
    by (repeat split; repeat constructor).
  split; [exact R|]. split; [exact En|].
  exact (proj1 (proj2 (proj2
    (connect_emitted_once_on_success "linux" 0 _ _ _ [1; 0])) R En)).
Defined.

(** ** Opening again *)

Lemma openThen_first_usable pf k s d ifs order iface :
  enumerates s d ifs -> noPair s ->
  find (usable pf) (scheduled ifs order) = Some iface ->
  exists o i,
    state_of (openThen pf (Some k) order s)
    = mkUSB (Some d) (Some (withTimeout 15000 o))
            (Some (withTimeout 700 i)) true false false (_readInFlight s).
Proof.
  intros En N F.
  destruct (open_enumerates (Some k) s d ifs En) as [t0 [E0 _]].
  destruct En as [Rs [D [_ [_ [I _]]]]].
  destruct (completions_first_usable pf k d ifs s _ iface D I N F 0)
    as [o [i [_ [_ X]]]].
  exists o, i. unfold openThen, bind. rewrite E0. unfold state_of in *.
  destruct (completions pf (Some k) (scheduled ifs order) 0 s)
    as [[c' s'] t'].
  cbn [fst snd] in *. subst s'. unfold withPair. rewrite D, Rs. reflexivity.
Qed.

(** X17. A session that was opened and then closed, or reset, can be
    opened again: [close] on the open session calls the transport's close
    once and leaves a session on which [open] enumerates the interfaces
    afresh, and so does a completed reset; a new [open] then opens the
    session again as soon as a usable interface completes. *)
Theorem reopen_after_close_or_reset (pf : string) (k : CallbackFn) (s : USB)
    (d : Device) (ifs : list Interface) (order : list nat)
    (iface : Interface) :
  reachable s -> enumerates s d ifs ->
  find (usable pf) (scheduled ifs order) = Some iface ->
  let opened := state_of (openThen pf (Some k) order s) in
  let closed := state_of (close (Some k) opened) in
  let wasReset err :=
    state_of (resetDone (Some k) err (state_of (reset (Some k) opened))) in
  _isOpen opened = true
  /\ nativeCalls (trace_of (close (Some k) opened)) = [NDeviceClose (ref d)]
  /\ enumerates closed d ifs
  /\ (forall order', existsb (usable pf) (scheduled ifs order') = true ->
        _isOpen (state_of (openThen pf (Some k) order' closed)) = true)
  /\ (forall err, reset_throws d = None ->
        enumerates (wasReset err) d ifs
        /\ (forall order',
              existsb (usable pf) (scheduled ifs order') = true ->
              _isOpen (state_of (openThen pf (Some k) order' (wasReset err)))
              = true)).
Proof.
  intros R En F.
  assert (O : _isOpen s = false) by apply En.
  pose proof (reachable_closed_noPair s R O) as N.
  destruct (openThen_first_usable pf k s d ifs order iface En N F)
    as [o [i E]].
  cbv zeta. rewrite E.
  destruct En as [Rs [D [_ [T [I Fa]]]]].
  assert (Again : forall s0,
    s0 = mkUSB (Some d) None None false false false false ->
    enumerates s0 d ifs
    /\ (forall order', existsb (usable pf) (scheduled ifs order') = true ->
          _isOpen (state_of (openThen pf (Some k) order' s0)) = true)).
  { intros s0 ->.
    assert (En0 : enumerates
              (mkUSB (Some d) None None false false false false) d ifs)
      by (repeat split; assumption).
    split; [exact En0|]. intros order' U.
    destruct (find (usable pf) (scheduled ifs order')) as [x|] eqn:Fx.
    - destruct (openThen_first_usable pf k _ d ifs order' x En0
                  (conj eq_refl eq_refl) Fx) as [o' [i' E']].
      rewrite E'. reflexivity.
    - exfalso. apply existsb_exists in U. destruct U as [y [Iy Uy]].
      apply (find_none _ _ Fx) in Iy. congruence. }
  split; [reflexivity|]. split; [reflexivity|].
  split; [|split].
  - apply Again. reflexivity.
  - apply Again. reflexivity.
  - intros err Tr. apply Again.
    unfold reset, resetDone. run. fields. rewrite Tr. reflexivity.
Qed.

Lemma reopen_after_close_or_reset_witness :
  reachable (boundTo (printerWith [ifaceBoth]))
  /\ enumerates (boundTo (printerWith [ifaceBoth])) (printerWith [ifaceBoth])
       [ifaceBoth]
  /\ find (usable "linux") (scheduled [ifaceBoth] [0]) = Some ifaceBoth
  /\ _isOpen (state_of (openThen "linux" (Some 0) [0]
                          (boundTo (printerWith [ifaceBoth])))) = true.
Proof.
  assert (R : reachable (boundTo (printerWith [ifaceBoth])))
    by apply reach_new.
  assert (En : enumerates (boundTo (printerWith [ifaceBoth]))
                 (printerWith [ifaceBoth]) [ifaceBoth])
    by (repeat split; repeat constructor).
  split; [exact R|]. split; [exact En|]. split; [reflexivity|].
  exact (proj1 (reopen_after_close_or_reset "linux" 0 _ _ _ [0] ifaceBoth
                  R En eq_refl)).
Defined.

(** ** USB.getDevice: when it fulfils, and when it never settles *)

Lemma callbacksOf_reporting k s cs : callbacksOf k (reporting k s cs) = cs.
Proof.
  induction cs as [|[e v] cs IH]; [reflexivity|].
  unfold callbacksOf, actions, reporting in *. simpl.
  rewrite Nat.eqb_refl. simpl. rewrite IH. reflexivity.
Qed.

Lemma ifaceReady_callbacksOf pf k iface c s :
  callbacksOf k (trace_of (ifaceReady pf (Some k) iface c s))
  = callbacks (trace_of (ifaceReady pf (Some k) iface c s)).
Proof.
  destruct (raises pf iface) eqn:R.
  - pose proof R as R'. rewrite raises_setupError in R'.
    destruct (setupError pf iface) as [e|] eqn:Se; [|discriminate].
    destruct (ifaceReady_raises_trace pf k iface c s e Se) as [t0 [E Hc]].
    rewrite E. unfold trace_of. cbn [snd].
    rewrite callbacksOf_app, callbacks_app, Hc, (callbacksOf_none k t0 Hc).
    unfold callbacksOf, callbacks. simpl. rewrite Nat.eqb_refl. reflexivity.
  - destruct (bothDirections iface) eqn:B.
    + destruct (endpoint s) as [x|] eqn:Eo;
        [|destruct (deviceToPcEndpoint s) as [y|] eqn:Ei].
      * destruct (ifaceReady_counts pf k iface c s R) as [t0 [E [Hc _]]].
        { right. intros [N _]. congruence. }
        rewrite E. unfold trace_of. cbn [snd].
        rewrite callbacksOf_app, callbacks_app, Hc,
          (callbacksOf_none k t0 Hc), callbacksOf_reporting,
          callbacks_reporting. reflexivity.
      * destruct (ifaceReady_counts pf k iface c s R) as [t0 [E [Hc _]]].
        { right. intros [_ N]. congruence. }
        rewrite E. unfold trace_of. cbn [snd].
        rewrite callbacksOf_app, callbacks_app, Hc,
          (callbacksOf_none k t0 Hc), callbacksOf_reporting,
          callbacks_reporting. reflexivity.
      * apply scanEndpoints_bothDirections in B. destruct B as [o [i Sc]].
        destruct (claimInterface_spec pf iface s) as [t [E [Hc _]]].
        rewrite raises_setupError in R.
        unfold ifaceReady, bind. rewrite E.
        destruct (setupError pf iface); [discriminate|].
        rewrite Sc. run. rewrite Eo, Ei. cbn [isNone negb andb]. run.
        cbn [snd app].
        rewrite !callbacksOf_app, !callbacks_app, Hc,
          (callbacksOf_none k t Hc).
        unfold callbacksOf, callbacks. simpl. rewrite Nat.eqb_refl.
        reflexivity.
    + destruct (ifaceReady_counts pf k iface c s R (or_introl B))
        as [t0 [E [Hc _]]].
      rewrite E. unfold trace_of. cbn [snd].
      rewrite callbacksOf_app, callbacks_app, Hc,
        (callbacksOf_none k t0 Hc), callbacksOf_reporting,
        callbacks_reporting. reflexivity.
Qed.

Lemma completions_callbacksOf pf k sched :
  forall c s,
  callbacksOf k (trace_of (completions pf (Some k) sched c s))
  = callbacks (trace_of (completions pf (Some k) sched c s)).
Proof.
  induction sched as [|x l IH]; intros c s; [reflexivity|].
  simpl completions. unfold bind.
  pose proof (ifaceReady_callbacksOf pf k x c s) as Hx.
  unfold trace_of in *.
  destruct (ifaceReady pf (Some k) x c s) as [[c1 s1] t1].
  specialize (IH c1 s1).
  destruct (completions pf (Some k) l c1 s1) as [[c2 s2] t2].
  cbn [fst snd] in *.
  rewrite callbacksOf_app, callbacks_app, Hx, IH. reflexivity.
Qed.

Lemma callbacks_from_parts t x :
  length (successes t) + length (failures t) = 1 ->
  In x (successes t ++ failures t) -> callbacks t = [x].
Proof.
  intros L I. pose proof (callbacks_split t) as S. rewrite L in S.
  unfold successes, failures in I.
  destruct (callbacks t) as [|c [|c' l]]; simpl in S; try discriminate.
  simpl in I. destruct (isNone (fst c)); simpl in I;
    destruct I as [I|[]]; subst; reflexivity.
Qed.

Lemma detach_before_completions_rejects pf d ifs order :
  open_throws d = None -> interfaces d = Some ifs ->
  Forall (fun i => setAltSetting_throws i = None) ifs ->
  Forall (fun i => raises pf i = false) ifs ->
  Permutation order (seq 0 (length ifs)) ->
  ifs <> [] -> existsb bothDirections ifs = false ->
  settle 0
    (trace_of
       ((pending <- open (Some 0) ;;
         _onDetach d ;;
         completions pf (Some 0) (scheduled pending order) 0)
        (mkUSB (Some d) None None false false false false)))
    Pending
  = Rejected ErrNotAnArray.
Proof.
  intros T I Fa Fq P Ne Nb.
  assert (En : enumerates (mkUSB (Some d) None None false false false false)
                 d ifs) by (repeat split; assumption).
  destruct (open_enumerates (Some 0) _ d ifs En) as [t0 [E0 [Hc0 _]]].
  assert (Ed : exists td,
    _onDetach d (mkUSB (Some d) None None false false false false)
    = (tt, mkUSB None None None false false false false, td)
    /\ callbacks td = []).
  { unfold _onDetach, isBound. run. cbn [device].
    rewrite (proj2 (DevRef_eqb_eq (ref d) (ref d)) eq_refl).
    eexists. split; reflexivity. }
  destruct Ed as [td [Ed Hcd]].
  pose proof (scheduled_Permutation ifs order P) as Ps.
  destruct (scheduled ifs order) as [|x l] eqn:Sc.
  { apply Permutation_nil in Ps. congruence. }
  assert (Ix : In x ifs).
  { eapply Permutation_in; [exact Ps|]. left. reflexivity. }
  assert (R : raises pf x = false).
  { rewrite Forall_forall in Fq. exact (Fq x Ix). }
  assert (B : bothDirections x = false).
  { destruct (bothDirections x) eqn:B; [|reflexivity].
    assert (existsb bothDirections ifs = true)
      by (apply existsb_exists; eauto).
    congruence. }
  destruct (ifaceReady_counts pf 0 x 0
              (mkUSB None None None false false false false) R (or_introl B))
    as [tx [Ex [Hcx _]]].
  rewrite settle_decidedBy.
  match goal with
  | |- context [bind (open ?cb) ?f ?s0] =>
      change (bind (open cb) f s0)
        with (let '(a, s1, t1) := open cb s0 in
              let '(b, s2, t2) := f a s1 in (b, s2, t1 ++ t2))
  end.
  match goal with
  | |- context [open ?cb ?s0] =>
      replace (open cb s0)
        with (ifs, mkUSB (Some d) None None false false false false, t0)
        by (symmetry; exact E0)
  end.
  cbv beta iota. unfold bind at 1. rewrite Ed. rewrite Sc.
  simpl completions. unfold bind at 1.
  match goal with
  | |- context [ifaceReady ?a ?cb ?c ?n ?s0] =>
      replace (ifaceReady a cb c n s0)
        with (1, mkUSB None None None false false false false,
              tx ++ reporting 0
                      (mkUSB None None None false false false false)
                      (exhaustionReport 1
                         (mkUSB None None None false false false false)))
        by (symmetry; exact Ex)
  end.
  match goal with
  | |- context [completions ?a ?cb ?c ?n ?s0] =>
      destruct (completions a cb c n s0) as [[c2 s2] t2]
  end.
  unfold trace_of. cbn [snd].
  rewrite !callbacksOf_app, (callbacksOf_none 0 t0 Hc0),
    (callbacksOf_none 0 td Hcd), (callbacksOf_none 0 tx Hcx),
    callbacksOf_reporting.
  reflexivity.
Qed.

(** X18. When [findByIds] returns a device whose open succeeds and none of
    whose interface setups raises, and nothing else reaches the session
    between the [open] of [USB.getDevice] and the completions of the
    setups, then once every setup has completed the promise is fulfilled
    with the session if some interface has both directions, rejected with
    the missing-pair error if the device has interfaces but none with both
    directions, and still pending (it never settles) if the device has no
    interface at all.  A hot-plug event can reach the session in between:
    when the device has interfaces, none with both directions, and it is
    detached after the [open] and before the setups complete, the promise
    is rejected with a type error instead of the missing-pair error. *)
Theorem getDevice_outcome_without_claim_errors (env : Env) (v p : Z)
    (d : Device) (ifs : list Interface) (order : list nat) :
  v <> 0%Z -> p <> 0%Z -> findByIds env v p = Some d ->
  open_throws d = None -> interfaces d = Some ifs ->
  Forall (fun i => setAltSetting_throws i = None) ifs ->
  Forall (fun i => raises (platform env) i = false) ifs ->
  Permutation order (seq 0 (length ifs)) ->
  fst (fst (getDevice env (ANumber v) (ANumber p) order))
  = (if existsb bothDirections ifs then Fulfilled VSelf
     else match ifs with
          | [] => Pending
          | _ :: _ => Rejected ErrNoEndpointPair
          end)
  /\ (ifs <> [] -> existsb bothDirections ifs = false ->
      settle 0
        (trace_of
           ((pending <- open (Some 0) ;;
             _onDetach d ;;
             completions (platform env) (Some 0)
               (scheduled pending order) 0)
            (new_USB env (ANumber v) (ANumber p))))
        Pending
      = Rejected ErrNotAnArray).
Proof.
  intros Hv Hp F T I Fa Fq P.
  assert (Ids : new_USB env (ANumber v) (ANumber p)
                = mkUSB (Some d) None None false false false false).
  { unfold new_USB. cbn. apply Z.eqb_neq in Hv, Hp.
    rewrite Hv, Hp, F. reflexivity. }
  split;
    [|intros Ne Nb; rewrite Ids;
      apply (detach_before_completions_rejects (platform env) d ifs order);
      assumption].
  unfold getDevice. rewrite Ids. cbn [fst].
  set (s := mkUSB (Some d) None None false false false false).
  assert (En : enumerates s d ifs) by (repeat split; assumption).
  assert (N : noPair s) by (split; reflexivity).
  clearbody s.
  rewrite settle_decidedBy.
  assert (Ck : callbacksOf 0 (trace_of (openThen (platform env) (Some 0)
                                          order s))
               = callbacks (trace_of (openThen (platform env) (Some 0)
                                        order s))).
  { destruct (open_enumerates (Some 0) s d ifs En) as [t0 [E0 [Hc0 _]]].
    unfold openThen, bind. rewrite E0.
    pose proof (completions_callbacksOf (platform env) 0
                  (scheduled ifs order) 0 s) as H.
    unfold trace_of in *.
    destruct (completions (platform env) (Some 0) (scheduled ifs order) 0 s)
      as [[c' s'] t'] eqn:Ec.
    cbn [fst snd] in *.
    assert (H' : callbacksOf 0 t' = callbacks t').
    { change t' with (snd (c', s', t')). rewrite <- Ec. exact H. }
    rewrite callbacksOf_app, callbacks_app, (callbacksOf_none 0 t0 Hc0),
      Hc0, H'. reflexivity. }
  rewrite Ck.
  destruct (openThen_callbacks (platform env) 0 s d ifs order En N P)
    as [t [Et [Sx [Fx _]]]].
  match goal with
  | |- context [callbacks ?x] => replace x with t by (symmetry; exact Et)
  end.
  assert (Q : forallb (fun i => negb (raises (platform env) i)) ifs = true).
  { apply forallb_forall. intros i Hi. rewrite Forall_forall in Fq.
    rewrite (Fq i Hi). reflexivity. }
  assert (U : existsb (usable (platform env)) ifs = existsb bothDirections ifs).
  { clear - Fq. induction Fq as [|i l Hi _ IH]; [reflexivity|].
    simpl. unfold usable at 1. rewrite Hi, IH. reflexivity. }
  assert (Rz : raisedErrors (platform env) (scheduled ifs order) = []).
  { unfold raisedErrors.
    replace (filter (raises (platform env)) (scheduled ifs order))
      with (@nil Interface); [reflexivity|].
    symmetry. apply forallb_quiet_no_raising.
    apply forallb_forall. intros i Hi. apply scheduled_incl in Hi.
    rewrite Forall_forall in Fq. rewrite (Fq i Hi). reflexivity. }
  unfold reportsNoPair in Fx. rewrite Q, Rz, U in Fx. rewrite U in Sx.
  destruct (existsb bothDirections ifs); cbn [negb andb app] in Fx.
  - rewrite (callbacks_from_parts t (None, VSelf)); [reflexivity| |].
    + rewrite Sx, Fx. reflexivity.
    + rewrite Sx. left. reflexivity.
  - destruct ifs as [|i0 l]; cbn [length Nat.eqb negb] in Fx.
    + pose proof (callbacks_split t) as L. rewrite Sx, Fx in L.
      destruct (callbacks t); [reflexivity|discriminate].
    + rewrite (callbacks_from_parts t (Some ErrNoEndpointPair, VNone));
        [reflexivity| |].
      * rewrite Sx, Fx. reflexivity.
      * rewrite Sx, Fx. left. reflexivity.
Qed.

Lemma getDevice_outcome_without_claim_errors_witness :
  (1 <> 0)%Z /\ (2 <> 0)%Z
  /\ fst (fst (getDevice
       (mkEnv "linux" [] (fun _ _ => Some (printerWith [ifaceBoth])))
       (ANumber 1) (ANumber 2) [0])) = Fulfilled VSelf.
Proof.
  split; [discriminate|]. split; [discriminate|].
  exact (proj1 (getDevice_outcome_without_claim_errors
    (mkEnv "linux" [] (fun _ _ => Some (printerWith [ifaceBoth])))
    1 2 (printerWith [ifaceBoth]) [ifaceBoth] [0]
    ltac:(discriminate) ltac:(discriminate) eq_refl eq_refl eq_refl
    ltac:(repeat constructor) ltac:(repeat constructor)
    (Permutation_refl _))).
Defined.
